(** * uqr: result post-processing and rendering pipeline

    A shallow embedding of [src/encode.ts], [src/render.ts] and [src/svg.ts].

    - JavaScript strings are sequences of UTF-16 code units ([jsstring]), so
      that [length] is the [.length] of the source.
    - JavaScript numbers are modelled by [Z]; the development covers the
      integer values a caller passes for sizes and borders.  The pixel size
      of the vector renderer is a [jsnumber], any double, and its products
      and its printing are those of the [Engine].
    - A call that may throw returns an [outcome]: either the value or the
      exception raised.
    - [addBorder] edits its argument in place and returns that same object;
      the embedding passes the state of the object explicitly, so the value a
      function returns is the state of the object after the call.
    - The QR symbol construction of [qrcode.ts] is a collaborator: its three
      entry points are the fields of the class [Collaborator], over which the
      pipeline is defined. *)

From Stdlib Require Import Ascii String DecimalString.
From Stdlib Require Import ZArith List Bool Lia.
Import ListNotations.

Open Scope Z_scope.

(** ** JavaScript strings *)

Definition jsstring := list N.

(** An ASCII literal of the source as code units. *)
Definition lit (s : string) : jsstring := map N_of_ascii (list_ascii_of_string s).

(** [Array.prototype.join]. *)
Fixpoint join (sep : jsstring) (parts : list jsstring) : jsstring :=
  match parts with
  | [] => []
  | p :: rest =>
      match rest with
      | [] => p
      | _ :: _ => p ++ sep ++ join sep rest
      end
  end.

(** [String.prototype.split] on a separator of one code unit. *)
Fixpoint split (c : N) (s : jsstring) : list jsstring :=
  match s with
  | [] => [[]]
  | x :: rest =>
      if N.eqb x c then [] :: split c rest
      else match split c rest with
           | [] => [[x]]
           | l :: ls => (x :: l) :: ls
           end
  end.

(** The decimal digits of an integer, after a minus sign when it is
    negative. *)
Definition decimal (n : Z) : jsstring := lit (NilZero.string_of_int (Z.to_int n)).

(** ** JavaScript numbers in svg.ts

    A Number is a double: a finite value [m * 2^e], NaN, or one of the two
    infinities.  (The two zeros are one value here; they print alike.) *)
Inductive jsnumber : Type :=
| Finite (m e : Z)
| NaN
| Infinity
| NegInfinity.

(** The Number of an integer. *)
Definition integer (z : Z) : jsnumber := Finite z 0.

(** The arithmetic of the engine that runs svg.ts: the product [a * b] of
    two Numbers, rounded as doubles are, and the text of a Number in a
    template literal. *)
Class Engine : Type := {
  times : jsnumber -> jsnumber -> jsnumber;
  toString : jsnumber -> jsstring
}.

(** [Number.MAX_SAFE_INTEGER], 2^53 - 1. *)
Definition MAX_SAFE_INTEGER : Z := 9007199254740991.

Definition safe (z : Z) : Prop := Z.abs z <= MAX_SAFE_INTEGER.

Definition safeb (z : Z) : bool := Z.abs z <=? MAX_SAFE_INTEGER.

(** What every engine does on safe integers: the product of two of them,
    when it is one too, is exact, and a safe integer prints as its decimal
    digits.  Outside of them nothing is assumed of the engine. *)
Class SafeIntegers (engine : Engine) : Prop := {
  times_safe : forall a b : Z,
    safe a -> safe b -> safe (a * b) -> times (integer a) (integer b) = integer (a * b);
  toString_safe : forall a : Z, safe a -> toString (integer a) = decimal a
}.

(** ** Exceptions and outcomes *)

Inductive exn : Type :=
| Error (message : jsstring)        (* [throw new Error(message)] *)
| TypeError (message : jsstring)    (* property read on [undefined] *)
| Thrown (message : jsstring).      (* raised by a collaborator or a callback *)

Inductive outcome (A : Type) : Type :=
| Ok (a : A)
| Throw (e : exn).
Arguments Ok {A} a.
Arguments Throw {A} e.

Definition bind {A B : Type} (m : outcome A) (k : A -> outcome B) : outcome B :=
  match m with
  | Ok a => k a
  | Throw e => Throw e
  end.

Notation "x <- m ;; k" := (bind m (fun x => k))
  (at level 61, m at next level, right associativity).

(** A loop body run over the successive values of the loop variable. *)
Fixpoint foldM {A S : Type} (body : S -> A -> outcome S) (xs : list A) (s : S) : outcome S :=
  match xs with
  | [] => Ok s
  | x :: rest => s' <- body s x ;; foldM body rest s'
  end.

(** The values taken by [i] in [for (let i = start; i < bound; i += step)],
    for [step >= 1]. *)
Fixpoint countUp (fuel : nat) (i step bound : Z) : list Z :=
  match fuel with
  | O => []
  | S fuel' => if i <? bound then i :: countUp fuel' (i + step) step bound else []
  end.

Definition forRange (start bound step : Z) : list Z :=
  countUp (Z.to_nat (bound - start)) start step bound.

(** ** Values read from a grid *)

(** What [data[y][x]] evaluates to: a boolean, or [undefined] when the row is
    shorter than [x]. *)
Inductive jsval : Type :=
| JBool (b : bool)
| JUndefined.

Definition truthy (v : jsval) : bool :=
  match v with
  | JBool b => b
  | JUndefined => false
  end.

(** [v === b] for a boolean constant [b]. *)
Definition strictEq (v : jsval) (b : bool) : bool :=
  match v with
  | JBool b' => Bool.eqb b' b
  | JUndefined => false
  end.

Definition typeErrorRow : exn :=
  TypeError (lit "Cannot read properties of undefined").

(** [grid[y][x]], for integers [0 <= y] and [0 <= x]. *)
Definition index2 (grid : list (list bool)) (y x : Z) : outcome jsval :=
  match nth_error grid (Z.to_nat y) with
  | None => Throw typeErrorRow
  | Some row =>
      match nth_error row (Z.to_nat x) with
      | None => Ok JUndefined
      | Some b => Ok (JBool b)
      end
  end.

(** ** encode.ts: the coordinate accessor *)

Definition getDataAt (data : list (list bool)) (x y : Z) (defaults : option bool)
  : outcome jsval :=
  let defaults := match defaults with Some d => d | None => false end in
  let len := Z.of_nat (length data) in
  if (x <? 0) || (y <? 0) || (x >=? len) || (y >=? len)
  then Ok (JBool defaults)
  else index2 data y x.

(** A grid of [n] rows of [n] cells. *)
Definition square {A : Type} (n : nat) (grid : list (list A)) : Prop :=
  length grid = n /\ Forall (fun row => length row = n) grid.

Definition squareb {A : Type} (n : nat) (grid : list (list A)) : bool :=
  Nat.eqb (length grid) n && forallb (fun row => Nat.eqb (length row) n) grid.


(** ** types.ts: the data model *)

(** Modelled from the spec: the enum [QrCodeDataType] of [types.ts], which is
    not among the sources.  The spec names the categories of a module:
    function pattern, timing pattern, data, error correction, format or
    version information, and border (quiet zone). *)
Inductive QrCodeDataType : Type :=
| Border
| Data
| Function
| Timing
| ErrorCorrection
| FormatVersion.

Module Result.
Record t : Type := mk {
  version : Z;
  maskPattern : Z;
  size : Z;
  data : list (list bool);
  types : list (list QrCodeDataType)
}.
End Result.

Definition QrCodeGenerateResult : Type := Result.t.

(** The input of [encode]: a string, an array of numbers, or any other value,
    of which only [typeof] is observed. *)
Inductive QrCodeGenerateData : Type :=
| DataString (text : jsstring)
| DataArray (bytes : list Z)
| DataOther (typeOf : jsstring).

(** The options object.  [QrCodeGenerateOptions], [QrCodeGenerateUnicodeOptions]
    and [QrCodeGenerateSvgOptions] are three views of one JavaScript object, in
    which every property may be absent. *)
Module Options.
Record t : Type := mk {
  ecc : option jsstring;
  boostEcc : option bool;
  minVersion : option Z;
  maxVersion : option Z;
  maskPattern : option Z;
  border : option Z;
  invert : option bool;
  onEncoded : option (QrCodeGenerateResult -> outcome QrCodeGenerateResult);
  whiteChar : option jsstring;
  blackChar : option jsstring;
  pixelSize : option jsnumber;
  whiteColor : option jsstring;
  blackColor : option jsstring
}.

(** The object [{}]. *)
Definition empty : t :=
  mk None None None None None None None None None None None None None.

(** [{ ...o, blackChar: b, whiteChar: w }]. *)
Definition withChars (o : t) (b w : jsstring) : t :=
  mk (ecc o) (boostEcc o) (minVersion o) (maxVersion o) (maskPattern o)
     (border o) (invert o) (onEncoded o) (Some w) (Some b)
     (pixelSize o) (whiteColor o) (blackColor o).
End Options.

(** A destructuring default: used when the property is [undefined]. *)
Definition orDefault {A : Type} (dflt : A) (v : option A) : A :=
  match v with
  | Some a => a
  | None => dflt
  end.

(** ** qrcode.ts: what [encode] consumes of the collaborator *)

(** Modelled from the spec: the collaborator's internal representation of the
    four error-correction levels, declared in [qrcode.ts]. *)
Inductive Ecc : Type := LOW | MEDIUM | QUARTILE | HIGH.

(** The value of [EccMap[key]]: a level, or, for any other key, a value that
    is no level ([undefined], or a property inherited from [Object]). *)
Inductive EccValue : Type :=
| Level (e : Ecc)
| NotALevel (key : jsstring).

Definition jsstring_eqb (a b : jsstring) : bool :=
  if list_eq_dec N.eq_dec a b then true else false.

(** Modelled from the spec: the table [EccMap] of [qrcode.ts], which maps the
    symbols L, M, Q and H to the collaborator's representation. *)
Definition EccMap (key : jsstring) : EccValue :=
  if jsstring_eqb key (lit "L") then Level LOW
  else if jsstring_eqb key (lit "M") then Level MEDIUM
  else if jsstring_eqb key (lit "Q") then Level QUARTILE
  else if jsstring_eqb key (lit "H") then Level HIGH
  else NotALevel key.

(** The object returned by [encodeSegments]. *)
Module QrCode.
Record t : Type := mk {
  version : Z;
  mask : Z;
  size : Z;
  modules : list (list bool);
  types : list (list QrCodeDataType)
}.
End QrCode.

(** ** encode.ts: border and polarity *)

(** [for (let i = 0; i < border; i++) { row.unshift(fill); row.push(fill) }] *)
Definition padRow {A : Type} (fill : A) (border : Z) (row : list A) : list A :=
  Nat.iter (Z.to_nat border) (fun r => fill :: r ++ [fill]) row.

(** [Array.from({ length: newSize }, _ => fill)] *)
Definition arrayFrom {A : Type} (newSize : Z) (fill : A) : list A :=
  repeat fill (Z.to_nat newSize).

(** [for (let i = 0; i < border; i++) { grid.unshift(row); grid.push(row') }],
    where [row] and [row'] are two fresh arrays of [newSize] cells. *)
Definition padGrid {A : Type} (fill : A) (border newSize : Z) (grid : list (list A))
  : list (list A) :=
  Nat.iter (Z.to_nat border)
           (fun g => arrayFrom newSize fill :: g ++ [arrayFrom newSize fill]) grid.

(** The rows of a grid are distinct arrays, so that extending one row leaves
    the others as they are. *)
Definition addBorder (input : QrCodeGenerateResult) (border : option Z)
  : QrCodeGenerateResult :=
  let border := orDefault 1 border in
  if border =? 0 then input
  else
    let size := Result.size input in
    let newSize := size + border * 2 in
    let data1 := map (padRow false border) (Result.data input) in
    let data2 := padGrid false border newSize data1 in
    let b := Border in
    let types1 := map (padRow b border) (Result.types input) in
    let types2 := padGrid b border newSize types1 in
    Result.mk (Result.version input) (Result.maskPattern input) newSize data2 types2.

(** [data.map(row => row.map(mod => !mod))] *)
Definition invertData (data : list (list bool)) : list (list bool) :=
  map (fun row => map (fun m => negb m) row) data.

(** ** render.ts and svg.ts: constants and loop bodies *)

Definition newline : jsstring := [10%N].

(** ESC [ 4 0 m, U+3000, ESC [ 0 m *)
Definition ansiBlack : jsstring :=
  [27; 91; 52; 48; 109; 12288; 27; 91; 48; 109]%N.

(** ESC [ 4 7 m, U+3000, ESC [ 0 m *)
Definition ansiWhite : jsstring :=
  [27; 91; 52; 55; 109; 12288; 27; 91; 48; 109]%N.

Module platte.
Definition WHITE_ALL : jsstring := [9608%N].
Definition WHITE_BLACK : jsstring := [9600%N].
Definition BLACK_WHITE : jsstring := [9604%N].
Definition BLACK_ALL : jsstring := [32%N].
End platte.

Definition WHITE : bool := false.
Definition BLACK : bool := true.

(** [a === c], for a call [a] that may throw. *)
Definition equals (a : outcome jsval) (c : bool) : outcome bool :=
  v <- a ;; Ok (strictEq v c).

(** [p && q]: [q] is evaluated only when [p] holds. *)
Definition andAlso (p q : outcome bool) : outcome bool :=
  x <- p ;; if x then q else Ok false.

(** The body of the inner loop of [renderUnicodeCompact]. *)
Definition compactCell (at_ : Z -> Z -> outcome jsval) (row : Z)
           (line : jsstring) (col : Z) : outcome jsstring :=
  c1 <- andAlso (equals (at_ col row) WHITE) (equals (at_ col (row + 1)) WHITE) ;;
  if c1 then Ok (line ++ platte.WHITE_ALL)
  else
    c2 <- andAlso (equals (at_ col row) WHITE) (equals (at_ col (row + 1)) BLACK) ;;
    if c2 then Ok (line ++ platte.WHITE_BLACK)
    else
      c3 <- andAlso (equals (at_ col row) BLACK) (equals (at_ col (row + 1)) WHITE) ;;
      if c3 then Ok (line ++ platte.BLACK_WHITE)
      else Ok (line ++ platte.BLACK_ALL).

(** The body of the outer loop: the state is [(lines, line)]. *)
Definition compactRow (at_ : Z -> Z -> outcome jsval) (size : Z)
           (st : list jsstring * jsstring) (row : Z)
  : outcome (list jsstring * jsstring) :=
  let (lines, line) := st in
  line <- foldM (compactCell at_ row) (forRange 0 size 1) line ;;
  Ok (lines ++ [line], []).

Definition dq : jsstring := [34%N].

(** [`M${x},${y}h${pixelSize}v${pixelSize}h-${pixelSize}z`] *)
Definition subpath {engine : Engine} (x y pixelSize : jsnumber) : jsstring :=
  lit "M" ++ toString x ++ lit "," ++ toString y
  ++ lit "h" ++ toString pixelSize
  ++ lit "v" ++ toString pixelSize
  ++ lit "h-" ++ toString pixelSize ++ lit "z".

(** The body of the inner loop of [renderSVG]. *)
Definition svgCell {engine : Engine} (grid : list (list bool)) (pixelSize : jsnumber)
           (row : Z) (pathes : list jsstring) (col : Z) : outcome (list jsstring) :=
  let x := times (integer col) pixelSize in
  let y := times (integer row) pixelSize in
  v <- index2 grid row col ;;
  if truthy v then Ok (pathes ++ [subpath x y pixelSize]) else Ok pathes.

Definition svgRow {engine : Engine} (grid : list (list bool)) (pixelSize : jsnumber)
           (size : Z) (pathes : list jsstring) (row : Z) : outcome (list jsstring) :=
  foldM (svgCell grid pixelSize row) (forRange 0 size 1) pathes.

Definition svgOpen {engine : Engine} (width height : jsnumber) : jsstring :=
  lit "<svg xmlns=" ++ dq ++ lit "http://www.w3.org/2000/svg" ++ dq
  ++ lit " viewBox=" ++ dq ++ lit "0 0 " ++ toString width ++ lit " "
  ++ toString height ++ dq ++ lit ">".

Definition svgRect {engine : Engine} (whiteColor : jsstring) (width height : jsnumber)
  : jsstring :=
  lit "<rect fill=" ++ dq ++ whiteColor ++ dq
  ++ lit " width=" ++ dq ++ toString width ++ dq
  ++ lit " height=" ++ dq ++ toString height ++ dq ++ lit "/>".

Definition svgPath (blackColor d : jsstring) : jsstring :=
  lit "<path fill=" ++ dq ++ blackColor ++ dq
  ++ lit " d=" ++ dq ++ d ++ dq ++ lit "/>".

(** ** The pipeline over the collaborator *)

(** The segment representation and the three entry points of [qrcode.ts]
    that [encode] imports.  Each of them may throw. *)
Class Collaborator : Type := {
  QrSegment : Type;
  makeSegments : jsstring -> outcome (list QrSegment);
  makeBytes : list Z -> outcome QrSegment;
  encodeSegments :
    list QrSegment -> EccValue -> Z -> Z -> Z -> bool -> outcome QrCode.t
}.

Section Pipeline.

Context {qrcode : Collaborator} {engine : Engine}.

(** Lines 25-32: the segments of the input, or the error of line 32. *)
Definition segmentsOf (data : QrCodeGenerateData) : outcome (list QrSegment) :=
  match data with
  | DataString text => makeSegments text
  | DataArray bytes => s <- makeBytes bytes ;; Ok [s]
  | DataOther typeOf =>
      Throw (Error (lit "uqr only supports encoding string and binary data, but got: "
                    ++ typeOf))
  end.

Definition encode (data : QrCodeGenerateData) (options : option Options.t)
  : outcome QrCodeGenerateResult :=
  let o := orDefault Options.empty options in
  let ecc := orDefault (lit "L") (Options.ecc o) in
  let boostEcc := orDefault false (Options.boostEcc o) in
  let minVersion := orDefault 1 (Options.minVersion o) in
  let maxVersion := orDefault 40 (Options.maxVersion o) in
  let maskPattern := orDefault (-1) (Options.maskPattern o) in
  let border := orDefault 1 (Options.border o) in
  segment <- segmentsOf data ;;
  qr <- encodeSegments segment (EccMap ecc) minVersion maxVersion maskPattern boostEcc ;;
  let result :=
    addBorder (Result.mk (QrCode.version qr) (QrCode.mask qr) (QrCode.size qr)
                         (QrCode.modules qr) (QrCode.types qr))
              (Some border) in
  let result :=
    if orDefault false (Options.invert o)
    then Result.mk (Result.version result) (Result.maskPattern result)
                   (Result.size result) (invertData (Result.data result))
                   (Result.types result)
    else result in
  match Options.onEncoded o with
  | Some callback => callback result
  | None => Ok result
  end.

(** *** render.ts *)

Definition renderUnicode (data : QrCodeGenerateData) (options : option Options.t)
  : outcome jsstring :=
  let options := orDefault Options.empty options in
  let whiteChar := orDefault [9608%N] (Options.whiteChar options) in
  let blackChar := orDefault [9617%N] (Options.blackChar options) in
  result <- encode data (Some options) ;;
  Ok (join newline
        (map (fun row => join [] (map (fun m : bool => if m then blackChar else whiteChar) row))
             (Result.data result))).

Definition renderANSI (data : QrCodeGenerateData) (options : option Options.t)
  : outcome jsstring :=
  let options := orDefault Options.empty options in
  renderUnicode data (Some (Options.withChars options ansiBlack ansiWhite)).

Definition renderUnicodeCompact (data : QrCodeGenerateData) (options : option Options.t)
  : outcome jsstring :=
  let options := orDefault Options.empty options in
  result <- encode data (Some options) ;;
  let at_ := fun x y => getDataAt (Result.data result) x y (Some true) in
  st <- foldM (compactRow at_ (Result.size result))
              (forRange 0 (Result.size result) 2) ([], []) ;;
  Ok (join newline (fst st)).

(** *** svg.ts *)

Definition renderSVG (data : QrCodeGenerateData) (options : option Options.t)
  : outcome jsstring :=
  let options := orDefault Options.empty options in
  result <- encode data (Some options) ;;
  let pixelSize := orDefault (integer 10) (Options.pixelSize options) in
  let whiteColor := orDefault (lit "white") (Options.whiteColor options) in
  let blackColor := orDefault (lit "black") (Options.blackColor options) in
  let height := times (integer (Result.size result)) pixelSize in
  let width := times (integer (Result.size result)) pixelSize in
  let svg := svgOpen width height in
  pathes <- foldM (svgRow (Result.data result) pixelSize (Result.size result))
                  (forRange 0 (Result.size result) 1) [] ;;
  let svg := svg ++ svgRect whiteColor width height in
  let svg := svg ++ svgPath blackColor (join [] pathes) in
  let svg := svg ++ lit "</svg>" in
  Ok svg.

(** *** Valid input *)

(** The arguments with which [encode] calls [encodeSegments]. *)
Definition generate (segs : list QrSegment) (o : Options.t) : outcome QrCode.t :=
  encodeSegments segs
    (EccMap (orDefault (lit "L") (Options.ecc o)))
    (orDefault 1 (Options.minVersion o))
    (orDefault 40 (Options.maxVersion o))
    (orDefault (-1) (Options.maskPattern o))
    (orDefault false (Options.boostEcc o)).

(** The input is accepted and the collaborator builds the symbol [qr] for
    it under the options [o]. *)
Definition generated (data : QrCodeGenerateData) (o : Options.t) (qr : QrCode.t) : Prop :=
  exists segs, segmentsOf data = Ok segs /\ generate segs o = Ok qr.

End Pipeline.

(** ** Vocabulary of the properties *)

(** [grid[y][x]] when the grid has that cell. *)
Definition at2 {A : Type} (grid : list (list A)) (y x : nat) : option A :=
  match nth_error grid y with
  | Some row => nth_error row x
  | None => None
  end.

(** The invariant of a generation result: [size == data.length ==
    data[i].length], and likewise for [types]. *)
Definition wfResult (r : QrCodeGenerateResult) : Prop :=
  0 <= Result.size r
  /\ square (Z.to_nat (Result.size r)) (Result.data r)
  /\ square (Z.to_nat (Result.size r)) (Result.types r).

Definition wfResultb (r : QrCodeGenerateResult) : bool :=
  (0 <=? Result.size r)
  && squareb (Z.to_nat (Result.size r)) (Result.data r)
  && squareb (Z.to_nat (Result.size r)) (Result.types r).

(** The same invariant on what the collaborator returns. *)
Definition wfQr (qr : QrCode.t) : Prop :=
  0 <= QrCode.size qr
  /\ square (Z.to_nat (QrCode.size qr)) (QrCode.modules qr)
  /\ square (Z.to_nat (QrCode.size qr)) (QrCode.types qr).

(** The result object made of the collaborator's output (lines 43-49). *)
Definition rawResult (qr : QrCode.t) : QrCodeGenerateResult :=
  Result.mk (QrCode.version qr) (QrCode.mask qr) (QrCode.size qr)
            (QrCode.modules qr) (QrCode.types qr).

(** Lines 43-52 of [encode]: the border, then the inversion. *)
Definition postProcess (o : Options.t) (qr : QrCode.t) : QrCodeGenerateResult :=
  let result := addBorder (rawResult qr) (Some (orDefault 1 (Options.border o))) in
  if orDefault false (Options.invert o)
  then Result.mk (Result.version result) (Result.maskPattern result)
                 (Result.size result) (invertData (Result.data result))
                 (Result.types result)
  else result.

(** Lines 54-56 of [encode]: the callback, then the return. *)
Definition notify (o : Options.t) (result : QrCodeGenerateResult)
  : outcome QrCodeGenerateResult :=
  match Options.onEncoded o with
  | Some callback => callback result
  | None => Ok result
  end.

(** The callback, when there is one, observes the result: it neither edits
    it nor throws. *)
Definition observes (o : Options.t) : Prop :=
  match Options.onEncoded o with
  | Some callback => forall r, callback r = Ok r
  | None => True
  end.

(** The grid after the two loops of [addBorder] that edit it. *)
Definition bordered {A : Type} (fill : A) (border newSize : Z) (grid : list (list A))
  : list (list A) :=
  padGrid fill border newSize (map (padRow fill border) grid).

(** The coordinate lies in the ring of width [b] of a grid of side [n]. *)
Definition inRing (n b y x : Z) : Prop :=
  0 <= x < n /\ 0 <= y < n /\ (x < b \/ y < b \/ n - b <= x \/ n - b <= y).

(** The number of dark modules of a grid. *)
Definition darkCount (grid : list (list bool)) : nat :=
  length (filter (fun m : bool => m) (concat grid)).

(** The letters that are commands of SVG path data. *)
Definition isCommand (c : N) : bool :=
  existsb (N.eqb c) (lit "MmZzLlHhVvCcSsQqTtAa").

Definition commandCount (d : jsstring) : nat :=
  length (filter isCommand d).

(** Does [pat] start [s]? *)
Fixpoint startsWith (pat s : jsstring) : bool :=
  match pat, s with
  | [], _ => true
  | _ :: _, [] => false
  | p :: pat', c :: s' => N.eqb p c && startsWith pat' s'
  end.

(** The number of positions of [s] at which [pat] occurs. *)
Fixpoint occurrences (pat s : jsstring) : nat :=
  match s with
  | [] => 0%nat
  | _ :: s' => ((if startsWith pat s then 1 else 0) + occurrences pat s')%nat
  end.

(** The renderings of one module by [renderUnicode] with its default
    characters, by [renderANSI], and of a pair of modules by
    [renderUnicodeCompact]. *)
Definition defaultChar (m : bool) : N := if m then 9617%N else 9608%N.

Definition ansiChar (m : bool) : jsstring := if m then ansiBlack else ansiWhite.

Definition compactGlyph (top bottom : jsval) : jsstring :=
  match top, bottom with
  | JBool false, JBool false => platte.WHITE_ALL
  | JBool false, JBool true => platte.WHITE_BLACK
  | JBool true, JBool false => platte.BLACK_WHITE
  | _, _ => platte.BLACK_ALL
  end.

(** The value the accessor returns; it returns one on every grid
    ([getDataAt_returns]). *)
Definition valueAt (grid : list (list bool)) (x y : Z) (defaults : option bool) : jsval :=
  match getDataAt grid x y defaults with
  | Ok v => v
  | Throw _ => JUndefined
  end.

(** The lines of the compact rendering of a result: one per pair of rows. *)
Definition compactLine (r : QrCodeGenerateResult) (row : Z) : jsstring :=
  flat_map (fun col => compactGlyph (valueAt (Result.data r) col row (Some true))
                                    (valueAt (Result.data r) col (row + 1) (Some true)))
           (forRange 0 (Result.size r) 1).

Definition compactLines (r : QrCodeGenerateResult) : list jsstring :=
  map (compactLine r) (forRange 0 (Result.size r) 2).

(** The rendering of a module of the last row of a grid of odd size. *)
Definition lastRowChar (m : bool) : N := if m then 32%N else 9600%N.


(** Is the module at [(row, col)] there and dark? *)
Definition darkAt (grid : list (list bool)) (row col : Z) : bool :=
  match at2 grid (Z.to_nat row) (Z.to_nat col) with
  | Some b => b
  | None => false
  end.

(** What the vector renderer is to write, spelled out apart from the
    templates of svg.ts.  A closed square of side [side] whose corner is at
    [(x, y)]: move, horizontal line, vertical line, horizontal line back,
    close. *)
Definition squarePath (x y side : Z) : jsstring :=
  lit "M" ++ decimal x ++ lit "," ++ decimal y
  ++ lit "h" ++ decimal side ++ lit "v" ++ decimal side
  ++ lit "h-" ++ decimal side ++ lit "z".

(** The squares of the dark modules of a row, from column [col] on. *)
Fixpoint rowPaths (side row col : Z) (cells : list bool) : list jsstring :=
  match cells with
  | [] => []
  | m :: rest =>
      (if m then [squarePath (col * side) (row * side) side] else [])
      ++ rowPaths side row (col + 1) rest
  end.

(** The squares of the dark modules of a grid, row by row from row [row]. *)
Fixpoint gridPaths (side row : Z) (grid : list (list bool)) : list jsstring :=
  match grid with
  | [] => []
  | cells :: rest => rowPaths side row 0 cells ++ gridPaths side (row + 1) rest
  end.

Definition quote : N := 34%N.

(** The opening tag, with the viewBox [0 0 width height]. *)
Definition expectedOpen (width height : Z) : jsstring :=
  lit "<svg xmlns=" ++ [quote] ++ lit "http://www.w3.org/2000/svg" ++ [quote]
  ++ lit " viewBox=" ++ [quote] ++ lit "0 0 " ++ decimal width ++ lit " "
  ++ decimal height ++ [quote] ++ lit ">".

(** The background rectangle over the whole canvas. *)
Definition expectedRect (fill : jsstring) (width height : Z) : jsstring :=
  lit "<rect fill=" ++ [quote] ++ fill ++ [quote]
  ++ lit " width=" ++ [quote] ++ decimal width ++ [quote]
  ++ lit " height=" ++ [quote] ++ decimal height ++ [quote] ++ lit "/>".

(** The one path with the path data [d]. *)
Definition expectedPath (fill d : jsstring) : jsstring :=
  lit "<path fill=" ++ [quote] ++ fill ++ [quote]
  ++ lit " d=" ++ [quote] ++ d ++ [quote] ++ lit "/>".

(** The code units of a number in a template literal: a digit or the sign. *)
Definition isNumberChar (c : N) : bool :=
  ((48 <=? c)%N && (c <=? 57)%N) || (c =? 45)%N.

(** The string opens no tag. *)
Definition tagFree (s : jsstring) : Prop := ~ In 60%N s.

(** ** A collaborator for the examples

    A stand-in for [qrcode.ts] that answers every request with one given
    symbol, whatever the segments and the level. *)
Module Sample.
Definition collaborator (qr : QrCode.t) : Collaborator := {|
  QrSegment := unit;
  makeSegments := fun _ => Ok [tt];
  makeBytes := fun _ => Ok tt;
  encodeSegments := fun _ _ _ _ _ _ => Ok qr
|}.

(** A collaborator whose [encodeSegments] throws on every request. *)
Definition failing (message : jsstring) : Collaborator := {|
  QrSegment := unit;
  makeSegments := fun _ => Ok [tt];
  makeBytes := fun _ => Ok tt;
  encodeSegments := fun _ _ _ _ _ _ => Throw (Thrown message)
|}.

(** A symbol of one dark module. *)
Definition dot : QrCode.t := QrCode.mk 1 0 1 [[true]] [[Data]].

(** A symbol of side 3 whose last row is dark. *)
Definition three : QrCode.t :=
  QrCode.mk 1 0 3
    [[true; false; true]; [false; false; true]; [true; true; true]]
    [[Data; Data; Data]; [Data; Data; Data]; [Data; Data; Data]].

(** An engine for the examples: exact on integers, which is all the
    examples use. *)
Definition engine : Engine := {|
  times := fun a b =>
             match a, b with
             | Finite m 0, Finite n 0 => Finite (m * n) 0
             | _, _ => NaN
             end;
  toString := fun a =>
                match a with
                | Finite m 0 => decimal m
                | _ => lit "NaN"
                end
|}.

Definition encode (qr : QrCode.t) := @encode (collaborator qr).
Definition renderUnicode (qr : QrCode.t) := @renderUnicode (collaborator qr).
Definition renderANSI (qr : QrCode.t) := @renderANSI (collaborator qr).
Definition renderUnicodeCompact (qr : QrCode.t) := @renderUnicodeCompact (collaborator qr).
Definition renderSVG (qr : QrCode.t) := @renderSVG (collaborator qr) engine.

(** [{ border: b }] *)
Definition withBorder (b : Z) : Options.t :=
  Options.mk None None None None None (Some b) None None None None None None None.

(** [{ ecc: key }] *)
Definition withEcc (key : jsstring) : Options.t :=
  Options.mk (Some key) None None None None None None None None None None None None.

(** [{ border: 0, whiteColor: c }] *)
Definition withWhiteColor (c : jsstring) : Options.t :=
  Options.mk None None None None None (Some 0) None None None None None (Some c) None.

(** [{ invert: true }] *)
Definition inverted : Options.t :=
  Options.mk None None None None None None (Some true) None None None None None None.
End Sample.

(** ** Further vocabulary *)

(** [{ ...o, invert: v }] *)
Definition setInvert (o : Options.t) (v : option bool) : Options.t :=
  Options.mk (Options.ecc o) (Options.boostEcc o) (Options.minVersion o)
             (Options.maxVersion o) (Options.maskPattern o) (Options.border o)
             v (Options.onEncoded o) (Options.whiteChar o) (Options.blackChar o)
             (Options.pixelSize o) (Options.whiteColor o) (Options.blackColor o).

(** The glyph of [renderUnicodeCompact] for a top and a bottom module. *)
Definition pairChar (p : bool * bool) : N :=
  match p with
  | (false, false) => 9608%N
  | (false, true) => 9600%N
  | (true, false) => 9604%N
  | (true, true) => 32%N
  end.

(** The character of [renderUnicode] for a module, under the options. *)
Definition unicodeChar (o : Options.t) (m : bool) : jsstring :=
  if m then orDefault [9617%N] (Options.blackChar o)
  else orDefault [9608%N] (Options.whiteChar o).

(** The error of line 32 for an input whose [typeof] is [typeOf]. *)
Definition unsupported (typeOf : jsstring) : exn :=
  Error (lit "uqr only supports encoding string and binary data, but got: " ++ typeOf).

(** More inputs for the examples. *)
Module Cases.

(** An answer of the collaborator that announces two rows and has none. *)
Definition hollow : QrCode.t := QrCode.mk 1 0 2 [] [].

(** A grid whose second row is shorter than the first. *)
Definition ragged : list (list bool) := [[true; true]; [false]].

(** A callback that throws. *)
Definition throwing (message : jsstring) : Options.t :=
  Options.mk None None None None None None None
             (Some (fun _ => Throw (Thrown message)))
             None None None None None.

(** [{ border: b, invert: true }] *)
Definition invertedWithBorder (b : Z) : Options.t :=
  Options.mk None None None None None (Some b) (Some true) None None None None None None.

End Cases.

(** * Properties *)

(** ** Lists, loops and strings *)

Lemma foldM_pure {A S : Type} (body : S -> A -> outcome S) (f : S -> A -> S) (xs : list A) :
  (forall s x, In x xs -> body s x = Ok (f s x)) ->
  forall s, foldM body xs s = Ok (fold_left f xs s).
Proof.
  induction xs as [|x xs IH]; intros H s; simpl.
  - reflexivity.
  - rewrite H by (left; reflexivity). simpl.
    apply IH. intros s' y Hy. apply H. right. exact Hy.
Qed.

Lemma fold_left_snoc {A B : Type} (g : A -> list B) (xs : list A) (acc : list B) :
  fold_left (fun l x => l ++ g x) xs acc = acc ++ flat_map g xs.
Proof.
  revert acc. induction xs as [|x xs IH]; intro acc; simpl.
  - now rewrite app_nil_r.
  - rewrite IH. now rewrite app_assoc.
Qed.

Lemma countUp_step1 (fuel : nat) (i : Z) :
  countUp fuel i 1 (i + Z.of_nat fuel) = map (fun k => i + Z.of_nat k) (seq 0 fuel).
Proof.
  revert i. induction fuel as [|f IH]; intro i.
  - reflexivity.
  - cbn [countUp seq map].
    destruct (Z.ltb_spec i (i + Z.of_nat (S f))) as [_|H]; [|lia].
    f_equal; [lia|].
    replace (i + Z.of_nat (S f)) with ((i + 1) + Z.of_nat f) by lia.
    rewrite IH. rewrite <- seq_shift, map_map.
    apply map_ext. intro k. lia.
Qed.

Lemma forRange_step1 (n : Z) :
  forRange 0 n 1 = map Z.of_nat (seq 0 (Z.to_nat n)).
Proof.
  unfold forRange. rewrite Z.sub_0_r.
  destruct (Z.le_gt_cases 0 n) as [Hn|Hn].
  - pose proof (countUp_step1 (Z.to_nat n) 0) as H.
    rewrite Z2Nat.id in H by exact Hn. simpl in H. rewrite H.
    apply map_ext. intro k. lia.
  - replace (Z.to_nat n) with 0%nat by lia. reflexivity.
Qed.

Lemma countUp_step2 (fuel : nat) (i bound : Z) :
  (Z.to_nat ((bound - i + 1) / 2) <= fuel)%nat ->
  countUp fuel i 2 bound
  = map (fun k => i + 2 * Z.of_nat k) (seq 0 (Z.to_nat ((bound - i + 1) / 2))).
Proof.
  revert i. induction fuel as [|f IH]; intros i Hf.
  - replace (Z.to_nat ((bound - i + 1) / 2)) with 0%nat by lia. reflexivity.
  - cbn [countUp]. destruct (Z.ltb_spec i bound) as [Hlt|Hge].
    + assert (Hdiv : (bound - i + 1) / 2 = (bound - (i + 2) + 1) / 2 + 1)
        by (Z.div_mod_to_equations; lia).
      assert (Hpos : 0 <= (bound - (i + 2) + 1) / 2)
        by (Z.div_mod_to_equations; lia).
      rewrite Hdiv in *. rewrite Z2Nat.inj_add in * by lia.
      change (Z.to_nat 1) with 1%nat in *. rewrite Nat.add_1_r in *.
      cbn [seq map]. f_equal; [lia|].
      rewrite IH by lia. rewrite <- seq_shift, map_map.
      apply map_ext. intro k. lia.
    + assert (Hz : (bound - i + 1) / 2 <= 0) by (Z.div_mod_to_equations; lia).
      replace (Z.to_nat ((bound - i + 1) / 2)) with 0%nat by lia. reflexivity.
Qed.

Lemma forRange_step2 (n : Z) :
  forRange 0 n 2 = map (fun k => 2 * Z.of_nat k) (seq 0 (Z.to_nat ((n + 1) / 2))).
Proof.
  unfold forRange. rewrite Z.sub_0_r.
  rewrite countUp_step2.
  - rewrite Z.sub_0_r. apply map_ext. intro k. lia.
  - rewrite Z.sub_0_r.
    destruct (Z.le_gt_cases 0 n) as [Hn|Hn].
    + apply Z2Nat.inj_le; [Z.div_mod_to_equations; lia | lia |].
      Z.div_mod_to_equations; lia.
    + assert ((n + 1) / 2 <= 0) by (Z.div_mod_to_equations; lia). lia.
Qed.

Lemma nth_error_nth_seq {A : Type} (d : A) (l : list A) :
  map (fun i => nth i l d) (seq 0 (length l)) = l.
Proof.
  induction l as [|a l IH]; simpl.
  - reflexivity.
  - f_equal. rewrite <- seq_shift, map_map. exact IH.
Qed.

(** ** The coordinate accessor *)

Lemma index2_in_range (grid : list (list bool)) (y x : Z) (row : list bool) (b : bool) :
  nth_error grid (Z.to_nat y) = Some row ->
  nth_error row (Z.to_nat x) = Some b ->
  index2 grid y x = Ok (JBool b).
Proof.
  intros Hy Hx. unfold index2. now rewrite Hy, Hx.
Qed.

Lemma getDataAt_outside (grid : list (list bool)) (x y : Z) (d : option bool) :
  x < 0 \/ y < 0 \/ Z.of_nat (length grid) <= x \/ Z.of_nat (length grid) <= y ->
  getDataAt grid x y d = Ok (JBool (orDefault false d)).
Proof.
  intro H. unfold getDataAt.
  destruct (Z.ltb_spec x 0); [reflexivity|].
  destruct (Z.ltb_spec y 0); [reflexivity|].
  destruct (Z.geb_spec x (Z.of_nat (length grid))); [reflexivity|].
  destruct (Z.geb_spec y (Z.of_nat (length grid))); [reflexivity|].
  lia.
Qed.

Lemma getDataAt_inside (grid : list (list bool)) (x y : Z) (d : option bool) :
  0 <= x < Z.of_nat (length grid) -> 0 <= y < Z.of_nat (length grid) ->
  getDataAt grid x y d = index2 grid y x.
Proof.
  intros Hx Hy. unfold getDataAt.
  destruct (Z.ltb_spec x 0); [lia|].
  destruct (Z.ltb_spec y 0); [lia|].
  destruct (Z.geb_spec x (Z.of_nat (length grid))); [lia|].
  destruct (Z.geb_spec y (Z.of_nat (length grid))); [lia|].
  reflexivity.
Qed.

(** The accessor returns a value on every grid, square or not. *)
Lemma getDataAt_returns (grid : list (list bool)) (x y : Z) (d : option bool) :
  exists v, getDataAt grid x y d = Ok v.
Proof.
  destruct (Z.lt_ge_cases x 0) as [Hx|Hx];
    [eexists; apply getDataAt_outside; lia|].
  destruct (Z.lt_ge_cases y 0) as [Hy|Hy];
    [eexists; apply getDataAt_outside; lia|].
  destruct (Z.lt_ge_cases x (Z.of_nat (length grid))) as [Hx'|Hx'];
    [|eexists; apply getDataAt_outside; lia].
  destruct (Z.lt_ge_cases y (Z.of_nat (length grid))) as [Hy'|Hy'];
    [|eexists; apply getDataAt_outside; lia].
  rewrite getDataAt_inside by lia. unfold index2.
  destruct (nth_error grid (Z.to_nat y)) as [row|] eqn:Hrow.
  - destruct (nth_error row (Z.to_nat x)); eexists; reflexivity.
  - apply nth_error_None in Hrow. lia.
Qed.

Lemma square_row {A : Type} (n : nat) (grid : list (list A)) (y : nat) :
  square n grid -> (y < n)%nat ->
  exists row, nth_error grid y = Some row /\ length row = n.
Proof.
  intros [Hlen Hrows] Hy.
  destruct (nth_error grid y) as [row|] eqn:Hrow.
  - exists row. split; [reflexivity|].
    rewrite Forall_forall in Hrows. apply Hrows. eapply nth_error_In. exact Hrow.
  - apply nth_error_None in Hrow. lia.
Qed.

Lemma square_at2 {A : Type} (n : nat) (grid : list (list A)) (y x : nat) :
  square n grid -> (y < n)%nat -> (x < n)%nat ->
  exists a, at2 grid y x = Some a.
Proof.
  intros Hsq Hy Hx. destruct (square_row n grid y Hsq Hy) as [row [Hrow Hlen]].
  unfold at2. rewrite Hrow.
  destruct (nth_error row x) as [a|] eqn:Ha.
  - exists a. reflexivity.
  - apply nth_error_None in Ha. lia.
Qed.

Lemma square_lengths {A : Type} (n : nat) (grid : list (list A)) :
  square n grid -> map (@length A) grid = repeat n n.
Proof.
  intros [Hlen Hrows]. rewrite <- Hlen at 2. clear Hlen.
  induction Hrows as [|row rows Hrow _ IH]; simpl; [reflexivity|].
  now rewrite Hrow, IH.
Qed.

Lemma squareb_square {A : Type} (n : nat) (grid : list (list A)) :
  squareb n grid = true -> square n grid.
Proof.
  unfold squareb, square. intro H. apply andb_prop in H. destruct H as [H1 H2].
  split; [now apply Nat.eqb_eq|].
  rewrite forallb_forall in H2. apply Forall_forall. intros row Hin.
  apply Nat.eqb_eq. now apply H2.
Qed.

(** C9.  On a square grid of side [size], and for all integers [x] and [y]
    and every default, the accessor returns the default when [x < 0],
    [y < 0], [x >= size] or [y >= size], and otherwise returns [grid[y][x]].
    It returns a value in every case: no call throws.  (The accessor is a
    function of its arguments only; it writes nothing.) *)
Theorem getDataAt_square (size : nat) (grid : list (list bool)) (x y : Z) (d : option bool) :
  square size grid ->
  (x < 0 \/ y < 0 \/ x >= Z.of_nat size \/ y >= Z.of_nat size ->
   getDataAt grid x y d = Ok (JBool (orDefault false d)))
  /\ (~ (x < 0 \/ y < 0 \/ x >= Z.of_nat size \/ y >= Z.of_nat size) ->
      exists b, at2 grid (Z.to_nat y) (Z.to_nat x) = Some b
                /\ getDataAt grid x y d = Ok (JBool b))
  /\ (exists v, getDataAt grid x y d = Ok v).
Proof.
  intro Hsq. pose proof Hsq as [Hlen _].
  split; [|split].
  - intro H. apply getDataAt_outside. lia.
  - intro H.
    destruct (square_at2 size grid (Z.to_nat y) (Z.to_nat x) Hsq) as [b Hb]; [lia|lia|].
    exists b. split; [exact Hb|].
    rewrite getDataAt_inside by lia.
    unfold at2 in Hb. destruct (nth_error grid (Z.to_nat y)) as [row|] eqn:Hrow; [|discriminate].
    eapply index2_in_range; eassumption.
  - apply getDataAt_returns.
Qed.

Lemma getDataAt_square_witness :
  square 2 [[true; false]; [false; true]]
  /\ getDataAt [[true; false]; [false; true]] 2 0 (Some true) = Ok (JBool true)
  /\ getDataAt [[true; false]; [false; true]] 1 1 None = Ok (JBool true).
Proof.
  assert (Hsq : square 2 [[true; false]; [false; true]])
    by (apply squareb_square; reflexivity).
  split; [exact Hsq|]. split.
  - apply (getDataAt_square 2 _ 2 0 (Some true) Hsq). simpl. lia.
  - reflexivity.
Defined.

(** C10.  The accessor compares both coordinates with the number of rows.
    On a grid with more columns than rows, a column index [x] that names an
    existing cell of row [y] but is not below the number of rows yields the
    default, not that cell. *)
Theorem getDataAt_checks_row_count
        (grid : list (list bool)) (x y : Z) (d : option bool) (row : list bool) (b : bool) :
  0 <= x -> 0 <= y ->
  nth_error grid (Z.to_nat y) = Some row ->
  nth_error row (Z.to_nat x) = Some b ->
  Z.of_nat (length grid) <= x ->
  getDataAt grid x y d = Ok (JBool (orDefault false d)).
Proof.
  intros _ _ _ _ Hx. apply getDataAt_outside. lia.
Qed.

Lemma getDataAt_checks_row_count_witness :
  nth_error [[false; false; true]] (Z.to_nat 0) = Some [false; false; true]
  /\ nth_error [false; false; true] (Z.to_nat 2) = Some true
  /\ getDataAt [[false; false; true]] 2 0 None = Ok (JBool false).
Proof.
  split; [reflexivity|]. split; [reflexivity|].
  apply (getDataAt_checks_row_count [[false; false; true]] 2 0 None [false; false; true] true);
    simpl; try lia; reflexivity.
Defined.

(** ** Inversion *)

(** C5.  Negating every module of a grid and negating every module of the
    outcome again gives back the grid. *)
Theorem invertData_involutive (grid : list (list bool)) :
  invertData (invertData grid) = grid.
Proof.
  unfold invertData. rewrite map_map.
  induction grid as [|row rows IH]; simpl.
  - reflexivity.
  - rewrite IH. f_equal. rewrite map_map.
    induction row as [|m ms IHr]; simpl.
    + reflexivity.
    + now rewrite negb_involutive, IHr.
Qed.

(** ** The border *)

Lemma iter_pad {A : Type} (a : A) (n : nat) (l : list A) :
  Nat.iter n (fun r => a :: r ++ [a]) l = repeat a n ++ l ++ repeat a n.
Proof.
  induction n as [|n IH].
  - simpl. now rewrite app_nil_r.
  - rewrite Nat.iter_succ, IH. cbn [repeat].
    rewrite <- !app_assoc, <- repeat_cons. reflexivity.
Qed.

Lemma padRow_eq {A : Type} (fill : A) (border : Z) (row : list A) :
  padRow fill border row
  = repeat fill (Z.to_nat border) ++ row ++ repeat fill (Z.to_nat border).
Proof. apply iter_pad. Qed.

Lemma padGrid_eq {A : Type} (fill : A) (border newSize : Z) (grid : list (list A)) :
  padGrid fill border newSize grid
  = repeat (arrayFrom newSize fill) (Z.to_nat border) ++ grid
    ++ repeat (arrayFrom newSize fill) (Z.to_nat border).
Proof. apply iter_pad. Qed.

(** A list between two runs of [k] copies of [a]. *)
Lemma nth_error_padded {A : Type} (a : A) (k : nat) (l : list A) (i : nat) :
  nth_error (repeat a k ++ l ++ repeat a k) i
  = if (i <? k)%nat then Some a
    else if (i <? k + length l)%nat then nth_error l (i - k)
    else if (i <? k + length l + k)%nat then Some a
    else None.
Proof.
  destruct (Nat.ltb_spec i k) as [H1|H1].
  - rewrite nth_error_app1 by (rewrite repeat_length; lia).
    now apply nth_error_repeat.
  - rewrite nth_error_app2 by (rewrite repeat_length; lia).
    rewrite repeat_length.
    destruct (Nat.ltb_spec i (k + length l)) as [H2|H2].
    + now rewrite nth_error_app1 by lia.
    + rewrite nth_error_app2 by lia.
      destruct (Nat.ltb_spec i (k + length l + k)) as [H3|H3].
      * apply nth_error_repeat. lia.
      * apply nth_error_None. rewrite repeat_length. lia.
Qed.

Lemma bordered_square {A : Type} (fill : A) (border : Z) (n : nat) (grid : list (list A)) :
  0 <= border -> square n grid ->
  square (n + 2 * Z.to_nat border)
         (bordered fill border (Z.of_nat n + border * 2) grid).
Proof.
  intros Hb [Hlen Hrows]. unfold bordered. rewrite padGrid_eq.
  assert (Hnew : length (arrayFrom (Z.of_nat n + border * 2) fill) = (n + 2 * Z.to_nat border)%nat).
  { unfold arrayFrom. rewrite repeat_length. lia. }
  split.
  - rewrite !length_app, !repeat_length, length_map. lia.
  - apply Forall_app. split; [|apply Forall_app; split].
    + apply Forall_forall. intros row Hin. apply repeat_spec in Hin. now subst.
    + apply Forall_map. eapply Forall_impl; [|exact Hrows].
      intros row Hrow. cbn beta in *. rewrite padRow_eq, !length_app, !repeat_length. lia.
    + apply Forall_forall. intros row Hin. apply repeat_spec in Hin. now subst.
Qed.

Lemma bordered_ring {A : Type} (fill : A) (border : Z) (n : nat) (grid : list (list A))
      (y x : Z) :
  0 <= border -> square n grid ->
  inRing (Z.of_nat n + border * 2) border y x ->
  at2 (bordered fill border (Z.of_nat n + border * 2) grid) (Z.to_nat y) (Z.to_nat x)
  = Some fill.
Proof.
  intros Hb [Hlen Hrows] (Hx & Hy & Hring).
  unfold bordered, at2. rewrite padGrid_eq, nth_error_padded, length_map, Hlen.
  assert (Hfresh : nth_error (arrayFrom (Z.of_nat n + border * 2) fill) (Z.to_nat x) = Some fill).
  { unfold arrayFrom. apply nth_error_repeat. lia. }
  destruct (Nat.ltb_spec (Z.to_nat y) (Z.to_nat border)) as [H1|H1]; [exact Hfresh|].
  destruct (Nat.ltb_spec (Z.to_nat y) (Z.to_nat border + n)) as [H2|H2].
  - rewrite nth_error_map.
    destruct (nth_error grid (Z.to_nat y - Z.to_nat border)) as [row|] eqn:Hrow.
    + assert (Hrl : length row = n).
      { rewrite Forall_forall in Hrows. apply Hrows. eapply nth_error_In. exact Hrow. }
      cbn [option_map]. rewrite padRow_eq, nth_error_padded, Hrl.
      destruct (Nat.ltb_spec (Z.to_nat x) (Z.to_nat border)) as [H3|H3]; [reflexivity|].
      destruct (Nat.ltb_spec (Z.to_nat x) (Z.to_nat border + n)) as [H4|H4]; [lia|].
      destruct (Nat.ltb_spec (Z.to_nat x) (Z.to_nat border + n + Z.to_nat border)) as [H5|H5];
        [reflexivity|lia].
    + apply nth_error_None in Hrow. lia.
  - destruct (Nat.ltb_spec (Z.to_nat y) (Z.to_nat border + n + Z.to_nat border)) as [H3|H3];
      [exact Hfresh|lia].
Qed.

(** The cells of the input keep their values, shifted by the border. *)
Lemma bordered_interior {A : Type} (fill : A) (border newSize : Z) (grid : list (list A))
      (y x : nat) (a : A) :
  at2 grid y x = Some a ->
  at2 (bordered fill border newSize grid) (Z.to_nat border + y) (Z.to_nat border + x)
  = Some a.
Proof.
  unfold at2, bordered. intro H.
  destruct (nth_error grid y) as [row|] eqn:Hrow; [|discriminate].
  assert (Hy : (y < length grid)%nat) by (apply nth_error_Some; congruence).
  assert (Hx : (x < length row)%nat) by (apply nth_error_Some; congruence).
  rewrite padGrid_eq, nth_error_padded, length_map.
  destruct (Nat.ltb_spec (Z.to_nat border + y) (Z.to_nat border)); [lia|].
  destruct (Nat.ltb_spec (Z.to_nat border + y) (Z.to_nat border + length grid)); [|lia].
  replace (Z.to_nat border + y - Z.to_nat border)%nat with y by lia.
  rewrite nth_error_map, Hrow. cbn [option_map].
  rewrite padRow_eq, nth_error_padded.
  destruct (Nat.ltb_spec (Z.to_nat border + x) (Z.to_nat border)); [lia|].
  destruct (Nat.ltb_spec (Z.to_nat border + x) (Z.to_nat border + length row)); [|lia].
  replace (Z.to_nat border + x - Z.to_nat border)%nat with x by lia.
  exact H.
Qed.

Lemma wfResultb_wf (r : QrCodeGenerateResult) : wfResultb r = true -> wfResult r.
Proof.
  unfold wfResultb, wfResult. intro H.
  apply andb_prop in H. destruct H as [H H3].
  apply andb_prop in H. destruct H as [H1 H2].
  split; [now apply Z.leb_le|].
  split; now apply squareb_square.
Qed.

Lemma addBorder_positive (input : QrCodeGenerateResult) (b : Z) :
  b <> 0 ->
  addBorder input (Some b)
  = Result.mk (Result.version input) (Result.maskPattern input)
              (Result.size input + b * 2)
              (bordered false b (Result.size input + b * 2) (Result.data input))
              (bordered Border b (Result.size input + b * 2) (Result.types input)).
Proof.
  intro Hb. unfold addBorder, orDefault.
  destruct (Z.eqb_spec b 0) as [H|_]; [contradiction|reflexivity].
Qed.

Lemma addBorder_wf (input : QrCodeGenerateResult) (b : Z) :
  0 <= b -> wfResult input -> wfResult (addBorder input (Some b)).
Proof.
  intros Hb Hwf. destruct (Z.eq_dec b 0) as [->|Hnz]; [exact Hwf|].
  destruct Hwf as (Hsz & Hd & Ht).
  rewrite addBorder_positive by exact Hnz. unfold wfResult. cbn [Result.size Result.data Result.types].
  replace (Z.to_nat (Result.size input + b * 2))
    with (Z.to_nat (Result.size input) + 2 * Z.to_nat b)%nat by lia.
  split; [lia|].
  split.
  - pose proof (bordered_square false b _ _ Hb Hd) as H.
    now rewrite Z2Nat.id in H by exact Hsz.
  - pose proof (bordered_square Border b _ _ Hb Ht) as H.
    now rewrite Z2Nat.id in H by exact Hsz.
Qed.

(** C4.  With a border of 0, [addBorder] returns its input as it is.  With
    a border [b > 0], on a result that satisfies the invariant of the data
    model, the size becomes the old size plus [2b]; every cell of the ring of
    width [b] is light in the module grid and tagged [Border] in the type
    grid; and the two grids are squares of the new size, so that their
    dimensions agree. *)
Theorem addBorder_spec (input : QrCodeGenerateResult) (b : Z) :
  0 <= b ->
  (b = 0 -> addBorder input (Some b) = input)
  /\ (0 < b ->
      let output := addBorder input (Some b) in
      Result.size output = Result.size input + 2 * b
      /\ (wfResult input ->
          (forall y x, inRing (Result.size output) b y x ->
             at2 (Result.data output) (Z.to_nat y) (Z.to_nat x) = Some false
             /\ at2 (Result.types output) (Z.to_nat y) (Z.to_nat x) = Some Border)
          /\ square (Z.to_nat (Result.size output)) (Result.data output)
          /\ square (Z.to_nat (Result.size output)) (Result.types output)
          /\ map (@length bool) (Result.data output)
             = map (@length QrCodeDataType) (Result.types output))).
Proof.
  intros Hb. split.
  - intros ->. reflexivity.
  - intro Hpos. cbv zeta. split.
    + rewrite addBorder_positive by lia. cbn [Result.size]. lia.
    + intro Hwf.
      pose proof (addBorder_wf input b Hb Hwf) as (Hsz' & Hd' & Ht').
      destruct Hwf as (Hsz & Hd & Ht).
      rewrite addBorder_positive in * by lia.
      cbn [Result.size Result.data Result.types] in *.
      split; [|split; [exact Hd'|split; [exact Ht'|]]].
      * intros y x Hring.
        rewrite <- (Z2Nat.id (Result.size input)) in Hring |- * by exact Hsz.
        split; apply bordered_ring; assumption.
      * rewrite (square_lengths _ _ Hd'), (square_lengths _ _ Ht'). reflexivity.
Qed.

Lemma addBorder_spec_witness :
  0 <= 1
  /\ wfResult (rawResult Sample.dot)
  /\ Result.size (addBorder (rawResult Sample.dot) (Some 1)) = 3
  /\ at2 (Result.data (addBorder (rawResult Sample.dot) (Some 1))) 0 2 = Some false
  /\ at2 (Result.types (addBorder (rawResult Sample.dot) (Some 1))) 0 2 = Some Border.
Proof.
  assert (Hwf : wfResult (rawResult Sample.dot)) by (apply wfResultb_wf; reflexivity).
  destruct (addBorder_spec (rawResult Sample.dot) 1 ltac:(lia)) as [_ H].
  destruct (H ltac:(lia)) as (Hsize & Hrest).
  destruct (Hrest Hwf) as (Hring & _).
  split; [lia|]. split; [exact Hwf|]. split; [exact Hsize|].
  apply (Hring 0 2). unfold inRing. rewrite Hsize. simpl. lia.
Defined.

(** ** The orchestrator *)

Section Orchestrator.

Context {qrcode : Collaborator}.

(** [encode] is its three stages in sequence. *)
Lemma encode_stages (data : QrCodeGenerateData) (o : Options.t) :
  encode data (Some o)
  = (segs <- segmentsOf data ;;
     qr <- generate segs o ;;
     notify o (postProcess o qr)).
Proof. reflexivity. Qed.

Lemma encode_undefined_options (data : QrCodeGenerateData) :
  encode data None = encode data (Some Options.empty).
Proof. reflexivity. Qed.

Lemma notify_observes (o : Options.t) (r : QrCodeGenerateResult) :
  observes o -> notify o r = Ok r.
Proof.
  unfold observes, notify. destruct (Options.onEncoded o); intro H; [apply H|reflexivity].
Qed.

Lemma encode_generated (data : QrCodeGenerateData) (o : Options.t) (qr : QrCode.t) :
  generated data o qr -> observes o ->
  encode data (Some o) = Ok (postProcess o qr).
Proof.
  intros (segs & Hsegs & Hgen) Hobs.
  rewrite encode_stages, Hsegs. cbn [bind]. rewrite Hgen. cbn [bind].
  now apply notify_observes.
Qed.

Lemma invertData_square (n : nat) (grid : list (list bool)) :
  square n grid -> square n (invertData grid).
Proof.
  intros [Hlen Hrows]. unfold invertData. split.
  - now rewrite length_map.
  - apply Forall_map. eapply Forall_impl; [|exact Hrows].
    intros row Hrow. cbn beta in *. now rewrite length_map.
Qed.

Lemma postProcess_wf (o : Options.t) (qr : QrCode.t) :
  wfQr qr -> 0 <= orDefault 1 (Options.border o) -> wfResult (postProcess o qr).
Proof.
  intros Hqr Hb. unfold postProcess.
  assert (Hwf : wfResult (addBorder (rawResult qr) (Some (orDefault 1 (Options.border o)))))
    by (apply addBorder_wf; assumption).
  destruct (orDefault false (Options.invert o)); [|exact Hwf].
  destruct Hwf as (Hsz & Hd & Ht). unfold wfResult. cbn [Result.size Result.data Result.types].
  split; [exact Hsz|]. split; [now apply invertData_square|exact Ht].
Qed.

Lemma at2_invertData (grid : list (list bool)) (y x : nat) :
  at2 (invertData grid) y x = option_map negb (at2 grid y x).
Proof.
  unfold at2, invertData. rewrite nth_error_map.
  destruct (nth_error grid y) as [row|]; [|reflexivity].
  cbn [option_map]. now rewrite nth_error_map.
Qed.

(** C6.  With [invert] set, on an input for which the collaborator builds a
    symbol, [encode] returns the bordered result with every module negated
    and the type grid of the bordered result as it is: the inversion acts
    on the grid that already has its border.  Cell by cell, the module at
    [(y, x)] of the returned result is the negation of the module at
    [(y, x)] of the bordered grid, and the returned grid has a cell exactly
    where the bordered grid has one.  So with a border [> 0] the corner
    module [data[0][0]] of the returned result is [true]. *)
Theorem encode_inverts_after_border
        (data : QrCodeGenerateData) (o : Options.t) (qr : QrCode.t) :
  generated data o qr -> observes o -> 0 <= QrCode.size qr ->
  Options.invert o = Some true ->
  let withBorder := addBorder (rawResult qr) (Some (orDefault 1 (Options.border o))) in
  exists r,
    encode data (Some o) = Ok r
    /\ Result.data r = invertData (Result.data withBorder)
    /\ Result.types r = Result.types withBorder
    /\ Result.size r = Result.size withBorder
    /\ (0 < orDefault 1 (Options.border o) -> at2 (Result.data r) 0 0 = Some true)
    /\ (forall y x,
          at2 (Result.data r) y x = option_map negb (at2 (Result.data withBorder) y x))
    /\ (forall y x m,
          at2 (Result.data withBorder) y x = Some m ->
          at2 (Result.data r) y x = Some (negb m)).
Proof.
  intros Hgen Hobs Hsz Hinv. cbv zeta.
  exists (postProcess o qr). split; [now apply encode_generated|].
  unfold postProcess. rewrite Hinv. cbn [orDefault Result.data Result.types Result.size].
  split; [reflexivity|]. split; [reflexivity|]. split; [reflexivity|].
  split; [|split].
  - intro Hb. rewrite addBorder_positive by lia.
    cbn [Result.data rawResult Result.size]. unfold bordered. rewrite padGrid_eq.
    destruct (Z.to_nat (orDefault 1 (Options.border o))) as [|k] eqn:Hk; [lia|].
    unfold arrayFrom.
    destruct (Z.to_nat (QrCode.size qr + orDefault 1 (Options.border o) * 2)) as [|w] eqn:Hw;
      [lia|].
    reflexivity.
  - intros y x. apply at2_invertData.
  - intros y x m Hm. now rewrite at2_invertData, Hm.
Qed.

(** C2, as the code has it.  When the [ecc] option is none of L, M, Q and
    H, [encode] raises no error of its own for it: the lookup in [EccMap]
    gives a value that is no level, and the collaborator is called with
    that value.  What [encode] does from there is what the collaborator
    does: its exception is the exception of [encode], and when it returns
    a symbol, [encode] returns the post-processed result. *)
Theorem encode_unrecognized_ecc
        (data : QrCodeGenerateData) (o : Options.t) (key : jsstring) :
  Options.ecc o = Some key ->
  key <> lit "L" -> key <> lit "M" -> key <> lit "Q" -> key <> lit "H" ->
  encode data (Some o)
  = (segs <- segmentsOf data ;;
     qr <- encodeSegments segs (NotALevel key)
                          (orDefault 1 (Options.minVersion o))
                          (orDefault 40 (Options.maxVersion o))
                          (orDefault (-1) (Options.maskPattern o))
                          (orDefault false (Options.boostEcc o)) ;;
     notify o (postProcess o qr)).
Proof.
  intros Hecc HL HM HQ HH. rewrite encode_stages.
  unfold generate. rewrite Hecc. cbn [orDefault].
  unfold EccMap, jsstring_eqb.
  destruct (list_eq_dec N.eq_dec key (lit "L")); [contradiction|].
  destruct (list_eq_dec N.eq_dec key (lit "M")); [contradiction|].
  destruct (list_eq_dec N.eq_dec key (lit "Q")); [contradiction|].
  destruct (list_eq_dec N.eq_dec key (lit "H")); [contradiction|].
  reflexivity.
Qed.

End Orchestrator.

Lemma encode_inverts_after_border_witness :
  @generated (Sample.collaborator Sample.dot) (DataString (lit "A")) Sample.inverted Sample.dot
  /\ observes Sample.inverted
  /\ 0 <= QrCode.size Sample.dot
  /\ Options.invert Sample.inverted = Some true
  /\ exists r,
       Sample.encode Sample.dot (DataString (lit "A")) (Some Sample.inverted) = Ok r
       /\ at2 (Result.data r) 0 0 = Some true.
Proof.
  assert (Hgen : @generated (Sample.collaborator Sample.dot) (DataString (lit "A"))
                            Sample.inverted Sample.dot)
    by (exists [tt]; split; reflexivity).
  assert (Hsz : 0 <= QrCode.size Sample.dot) by (simpl; lia).
  split; [exact Hgen|]. split; [exact I|]. split; [exact Hsz|]. split; [reflexivity|].
  destruct (@encode_inverts_after_border (Sample.collaborator Sample.dot)
              (DataString (lit "A")) Sample.inverted Sample.dot Hgen I Hsz eq_refl)
    as (r & He & _ & _ & _ & Hcorner & _).
  exists r. split; [exact He|]. apply Hcorner. simpl. lia.
Defined.

(** C2, as the claim has it, fails: with the level "X" and a collaborator
    that accepts every request, [encode] returns a result; and what [encode]
    does with that level changes with the collaborator, which is therefore
    called. *)
Lemma encode_unrecognized_ecc_counterexample :
  ~ (forall (qrcode : Collaborator) (data : QrCodeGenerateData) (o : Options.t)
            (key : jsstring),
        Options.ecc o = Some key ->
        key <> lit "L" -> key <> lit "M" -> key <> lit "Q" -> key <> lit "H" ->
        exists e, encode data (Some o) = Throw e)
  /\ Sample.encode Sample.dot (DataString (lit "A")) (Some (Sample.withEcc (lit "X")))
     = Ok (addBorder (rawResult Sample.dot) (Some 1))
  /\ @encode (Sample.failing (lit "no level")) (DataString (lit "A"))
             (Some (Sample.withEcc (lit "X")))
     = Throw (Thrown (lit "no level")).
Proof.
  split; [|split; reflexivity].
  intro H.
  destruct (H (Sample.collaborator Sample.dot) (DataString (lit "A"))
              (Sample.withEcc (lit "X")) (lit "X") eq_refl) as [e He];
    try (intro Heq; discriminate Heq).
  discriminate He.
Qed.

Lemma encode_unrecognized_ecc_witness :
  Options.ecc (Sample.withEcc (lit "X")) = Some (lit "X")
  /\ lit "X" <> lit "L" /\ lit "X" <> lit "M" /\ lit "X" <> lit "Q" /\ lit "X" <> lit "H"
  /\ Sample.encode Sample.dot (DataString (lit "A")) (Some (Sample.withEcc (lit "X")))
     = (segs <- @segmentsOf (Sample.collaborator Sample.dot) (DataString (lit "A")) ;;
        qr <- @encodeSegments (Sample.collaborator Sample.dot) segs (NotALevel (lit "X"))
                              1 40 (-1) false ;;
        notify (Sample.withEcc (lit "X")) (postProcess (Sample.withEcc (lit "X")) qr)).
Proof.
  assert (HL : lit "X" <> lit "L") by (intro Heq; discriminate Heq).
  assert (HM : lit "X" <> lit "M") by (intro Heq; discriminate Heq).
  assert (HQ : lit "X" <> lit "Q") by (intro Heq; discriminate Heq).
  assert (HH : lit "X" <> lit "H") by (intro Heq; discriminate Heq).
  split; [reflexivity|]. split; [exact HL|]. split; [exact HM|].
  split; [exact HQ|]. split; [exact HH|].
  exact (@encode_unrecognized_ecc (Sample.collaborator Sample.dot) (DataString (lit "A"))
           (Sample.withEcc (lit "X")) (lit "X") eq_refl HL HM HQ HH).
Defined.

(** ** Strings of lines *)

Lemma join_empty_concat (parts : list jsstring) : join [] parts = concat parts.
Proof.
  induction parts as [|p rest IH]; [reflexivity|].
  cbn [join concat]. destruct rest as [|q rest'].
  - simpl. now rewrite app_nil_r.
  - rewrite IH. reflexivity.
Qed.

Lemma concat_singletons {A B : Type} (f : A -> B) (l : list A) :
  concat (map (fun a => [f a]) l) = map f l.
Proof. induction l as [|a l IH]; simpl; [reflexivity|now rewrite IH]. Qed.

Lemma split_cons_sep (c : N) (s : jsstring) : split c (c :: s) = [] :: split c s.
Proof. cbn [split]. now rewrite N.eqb_refl. Qed.

Lemma split_not_nil (c : N) (s : jsstring) : split c s <> [].
Proof.
  destruct s as [|x s]; cbn [split]; [discriminate|].
  destruct (N.eqb x c); [discriminate|].
  destruct (split c s); discriminate.
Qed.

Lemma split_app_free (c : N) (p s : jsstring) :
  ~ In c p ->
  split c (p ++ s) = (p ++ hd [] (split c s)) :: tl (split c s).
Proof.
  induction p as [|x p IH]; intro Hfree.
  - simpl. pose proof (split_not_nil c s) as Hne.
    destruct (split c s); [contradiction|reflexivity].
  - cbn [app split].
    destruct (N.eqb_spec x c) as [->|Hxc]; [exfalso; apply Hfree; now left|].
    rewrite IH by (intro Hin; apply Hfree; now right). reflexivity.
Qed.

Lemma split_join (c : N) (lines : list jsstring) :
  lines <> [] -> Forall (fun line => ~ In c line) lines ->
  split c (join [c] lines) = lines.
Proof.
  induction lines as [|p rest IH]; intros Hne Hfree; [contradiction|].
  inversion Hfree as [|? ? Hp Hrest]; subst.
  cbn [join]. destruct rest as [|q rest'].
  - rewrite <- (app_nil_r p) at 1. rewrite split_app_free by exact Hp.
    simpl. now rewrite app_nil_r.
  - rewrite split_app_free by exact Hp.
    cbn [app]. rewrite split_cons_sep. cbn [hd tl].
    rewrite app_nil_r, IH; [reflexivity|discriminate|exact Hrest].
Qed.

Lemma split_snoc_sep (c : N) (s : jsstring) : split c (s ++ [c]) = split c s ++ [[]].
Proof.
  induction s as [|x s IH].
  - simpl. now rewrite N.eqb_refl.
  - cbn [app split]. rewrite IH.
    destruct (N.eqb x c); [reflexivity|].
    pose proof (split_not_nil c s) as Hne.
    destruct (split c s); [contradiction|reflexivity].
Qed.

(** A string whose lines are all non-empty does not end in the separator. *)
Lemma no_trailing_separator (c : N) (s : jsstring) :
  Forall (fun line => line <> []) (split c s) -> forall s', s <> s' ++ [c].
Proof.
  intros Hall s' ->. rewrite split_snoc_sep in Hall.
  apply Forall_app in Hall. destruct Hall as [_ Hlast].
  inversion Hlast as [|? ? Hbad _]. now apply Hbad.
Qed.

(** ** The text renderers *)

Section TextRenderers.

Context {qrcode : Collaborator}.

Lemma renderUnicode_of_result (data : QrCodeGenerateData) (o : Options.t)
      (r : QrCodeGenerateResult) :
  encode data (Some o) = Ok r ->
  renderUnicode data (Some o)
  = Ok (join newline
          (map (fun row =>
                  concat (map (fun m : bool =>
                                 if m then orDefault [9617%N] (Options.blackChar o)
                                 else orDefault [9608%N] (Options.whiteChar o)) row))
               (Result.data r))).
Proof.
  intro He. unfold renderUnicode. cbn [orDefault]. rewrite He. cbn [bind].
  do 2 f_equal. apply map_ext. intro row. apply join_empty_concat.
Qed.

Lemma defaultChar_lines_free (grid : list (list bool)) :
  Forall (fun line => ~ In 10%N line) (map (map defaultChar) grid).
Proof.
  apply Forall_map, Forall_forall. intros row _ Hin.
  apply in_map_iff in Hin. destruct Hin as [m [Hm _]]. destruct m; discriminate Hm.
Qed.

(** C7.  With the default options, on an input for which the collaborator
    builds a symbol of side [size] made of [size] rows of [size] modules,
    [renderUnicode] returns the rows of the result joined by one newline,
    where a dark module is U+2591 and a light module is U+2588.  Split on
    the newline, the output is one line per row: [size] lines of length
    [size], [size] being the side of the result; no newline ends it. *)
Theorem renderUnicode_default (data : QrCodeGenerateData) (qr : QrCode.t) :
  generated data Options.empty qr -> wfQr qr ->
  exists r s,
    encode data None = Ok r
    /\ renderUnicode data None = Ok s
    /\ s = join newline (map (map defaultChar) (Result.data r))
    /\ split 10%N s = map (map defaultChar) (Result.data r)
    /\ length (split 10%N s) = Z.to_nat (Result.size r)
    /\ Forall (fun line => length line = Z.to_nat (Result.size r)) (split 10%N s)
    /\ (forall s', s <> s' ++ newline).
Proof.
  intros Hgen Hqr.
  pose proof (encode_generated data Options.empty qr Hgen I) as He.
  pose proof (postProcess_wf Options.empty qr Hqr ltac:(simpl; lia)) as Hwf.
  set (r := postProcess Options.empty qr) in *.
  assert (Hsize : 0 < Result.size r).
  { subst r. unfold postProcess. cbn [orDefault Options.invert Options.border Options.empty].
    rewrite addBorder_positive by lia. cbn [Result.size rawResult].
    destruct Hqr as [Hq _]. lia. }
  destruct Hwf as (_ & [Hlen Hrows] & _).
  assert (Hs : renderUnicode data None
               = Ok (join newline (map (map defaultChar) (Result.data r)))).
  { change (renderUnicode data None) with (renderUnicode data (Some Options.empty)).
    rewrite (renderUnicode_of_result data Options.empty r He).
    do 2 f_equal. apply map_ext. intro row.
    cbn [orDefault Options.blackChar Options.whiteChar Options.empty].
    rewrite <- (concat_singletons defaultChar row). f_equal.
    apply map_ext. intros [|]; reflexivity. }
  assert (Hsplit : split 10%N (join newline (map (map defaultChar) (Result.data r)))
                   = map (map defaultChar) (Result.data r)).
  { apply split_join; [|apply defaultChar_lines_free].
    intro Hnil. apply (f_equal (@length _)) in Hnil. rewrite length_map, Hlen in Hnil.
    cbn [length] in Hnil. lia. }
  assert (Hlines : Forall (fun line => length line = Z.to_nat (Result.size r))
                          (map (map defaultChar) (Result.data r))).
  { apply Forall_map. eapply Forall_impl; [|exact Hrows].
    intros row Hrow. cbn beta in *. now rewrite length_map. }
  exists r, (join newline (map (map defaultChar) (Result.data r))).
  split; [exact He|]. split; [exact Hs|]. split; [reflexivity|].
  split; [exact Hsplit|]. rewrite Hsplit.
  split; [now rewrite length_map|]. split; [exact Hlines|].
  apply no_trailing_separator. rewrite Hsplit.
  eapply Forall_impl; [|exact Hlines].
  intros line Hl ->. cbn [length] in Hl. lia.
Qed.

Lemma withChars_encode (data : QrCodeGenerateData) (o : Options.t) (b w : jsstring) :
  encode data (Some (Options.withChars o b w)) = encode data (Some o).
Proof. reflexivity. Qed.


End TextRenderers.

Lemma wfQr_dot : wfQr Sample.dot.
Proof.
  split; [simpl; lia|]. split; apply squareb_square; reflexivity.
Qed.

Lemma renderUnicode_default_witness :
  @generated (Sample.collaborator Sample.dot) (DataString (lit "A")) Options.empty Sample.dot
  /\ wfQr Sample.dot
  /\ exists s,
       Sample.renderUnicode Sample.dot (DataString (lit "A")) None = Ok s
       /\ length (split 10%N s) = 3%nat.
Proof.
  assert (Hgen : @generated (Sample.collaborator Sample.dot) (DataString (lit "A"))
                            Options.empty Sample.dot)
    by (exists [tt]; split; reflexivity).
  split; [exact Hgen|]. split; [exact wfQr_dot|].
  destruct (@renderUnicode_default (Sample.collaborator Sample.dot)
              (DataString (lit "A")) Sample.dot Hgen wfQr_dot)
    as (r & s & He & Hs & _ & _ & Hlen & _).
  exists s. split; [exact Hs|].
  rewrite Hlen. injection He as <-. reflexivity.
Defined.

(** ** The compact renderer *)

Lemma getDataAt_valueAt (grid : list (list bool)) (x y : Z) (d : option bool) :
  getDataAt grid x y d = Ok (valueAt grid x y d).
Proof.
  unfold valueAt. destruct (getDataAt_returns grid x y d) as [v Hv]. now rewrite Hv.
Qed.

Lemma compactCell_glyph (grid : list (list bool)) (row : Z) (line : jsstring) (col : Z) :
  compactCell (fun x y => getDataAt grid x y (Some true)) row line col
  = Ok (line ++ compactGlyph (valueAt grid col row (Some true))
                             (valueAt grid col (row + 1) (Some true))).
Proof.
  unfold compactCell, andAlso, equals. rewrite !getDataAt_valueAt.
  destruct (valueAt grid col row (Some true)) as [[|]|];
    destruct (valueAt grid col (row + 1) (Some true)) as [[|]|]; reflexivity.
Qed.

Lemma compactRow_line (r : QrCodeGenerateResult) (lines : list jsstring) (row : Z) :
  compactRow (fun x y => getDataAt (Result.data r) x y (Some true)) (Result.size r)
             (lines, []) row
  = Ok (lines ++ [compactLine r row], []).
Proof.
  unfold compactRow.
  rewrite (foldM_pure _ (fun line col =>
             line ++ compactGlyph (valueAt (Result.data r) col row (Some true))
                                  (valueAt (Result.data r) col (row + 1) (Some true))))
    by (intros; apply compactCell_glyph).
  cbn [bind]. rewrite fold_left_snoc. reflexivity.
Qed.

Lemma compactRows_lines (r : QrCodeGenerateResult) (rows : list Z) (lines : list jsstring) :
  foldM (compactRow (fun x y => getDataAt (Result.data r) x y (Some true)) (Result.size r))
        rows (lines, [])
  = Ok (lines ++ map (compactLine r) rows, []).
Proof.
  revert lines. induction rows as [|row rows IH]; intro lines.
  - simpl. now rewrite app_nil_r.
  - cbn [foldM]. rewrite compactRow_line. cbn [bind]. rewrite IH.
    cbn [map]. now rewrite <- app_assoc.
Qed.

(** Whatever the result, the compact renderer returns the lines of
    [compactLines], joined by newlines. *)
Lemma renderUnicodeCompact_of_result {qrcode : Collaborator}
      (data : QrCodeGenerateData) (o : Options.t) (r : QrCodeGenerateResult) :
  encode data (Some o) = Ok r ->
  renderUnicodeCompact data (Some o) = Ok (join newline (compactLines r)).
Proof.
  intro He. unfold renderUnicodeCompact. cbn [orDefault]. rewrite He. cbn [bind].
  rewrite compactRows_lines. reflexivity.
Qed.

Lemma compactGlyph_free (a b : jsval) : ~ In 10%N (compactGlyph a b).
Proof.
  destruct a as [[|]|]; destruct b as [[|]|]; simpl; intros [H|[]]; discriminate H.
Qed.

Lemma compactLines_free (r : QrCodeGenerateResult) :
  Forall (fun line => ~ In 10%N line) (compactLines r).
Proof.
  apply Forall_map, Forall_forall. intros row _ Hin.
  unfold compactLine in Hin. apply in_flat_map in Hin.
  destruct Hin as [col [_ Hin]]. exact (compactGlyph_free _ _ Hin).
Qed.

Lemma valueAt_inside (grid : list (list bool)) (n : nat) (x y : Z) (d : option bool)
      (row : list bool) :
  square n grid -> 0 <= x < Z.of_nat n -> 0 <= y < Z.of_nat n ->
  nth_error grid (Z.to_nat y) = Some row ->
  valueAt grid x y d = JBool (nth (Z.to_nat x) row false).
Proof.
  intros [Hlen Hrows] Hx Hy Hrow.
  assert (Hrl : length row = n).
  { rewrite Forall_forall in Hrows. apply Hrows. eapply nth_error_In. exact Hrow. }
  unfold valueAt. rewrite getDataAt_inside by lia.
  unfold index2. rewrite Hrow.
  destruct (nth_error row (Z.to_nat x)) as [b|] eqn:Hb.
  - now rewrite (nth_error_nth _ _ _ Hb).
  - apply nth_error_None in Hb. lia.
Qed.

Lemma valueAt_outside (grid : list (list bool)) (x y : Z) (d : option bool) :
  x < 0 \/ y < 0 \/ Z.of_nat (length grid) <= x \/ Z.of_nat (length grid) <= y ->
  valueAt grid x y d = JBool (orDefault false d).
Proof.
  intro H. unfold valueAt. now rewrite getDataAt_outside.
Qed.

Lemma flat_map_singletons {A B : Type} (f : A -> list B) (g : A -> B) (l : list A) :
  (forall a, In a l -> f a = [g a]) -> flat_map f l = map g l.
Proof.
  induction l as [|a l IH]; intro H; [reflexivity|].
  cbn [flat_map map]. rewrite H by (now left). rewrite IH; [reflexivity|].
  intros b Hb. apply H. now right.
Qed.

Lemma lastRowChar_dark (row : list bool) :
  Forall (fun m => m = true) row -> map lastRowChar row = repeat 32%N (length row).
Proof.
  induction 1 as [|m row Hm _ IH]; [reflexivity|].
  subst m. simpl. now rewrite IH.
Qed.

(** The line for the last row of a result of odd size. *)
Lemma compactLine_last (r : QrCodeGenerateResult) (k : Z) (lastRow : list bool) :
  wfResult r -> 0 <= k -> Result.size r = 2 * k + 1 ->
  nth_error (Result.data r) (Z.to_nat (2 * k)) = Some lastRow ->
  compactLine r (2 * k) = map lastRowChar lastRow.
Proof.
  intros (Hsz & Hd & _) Hk Hsize Hrow.
  pose proof Hd as [Hlen Hrows].
  assert (Hrl : length lastRow = Z.to_nat (Result.size r)).
  { rewrite Forall_forall in Hrows. apply Hrows. eapply nth_error_In. exact Hrow. }
  unfold compactLine. rewrite forRange_step1.
  rewrite (flat_map_singletons _
             (fun col => lastRowChar (nth (Z.to_nat col) lastRow false))).
  - rewrite map_map.
    transitivity (map lastRowChar
                      (map (fun i => nth i lastRow false) (seq 0 (length lastRow)))).
    + rewrite map_map, Hrl. apply map_ext. intro i. now rewrite Nat2Z.id.
    + now rewrite nth_error_nth_seq.
  - intros col Hin. apply in_map_iff in Hin. destruct Hin as [i [<- Hi]].
    apply in_seq in Hi.
    rewrite (valueAt_inside _ _ _ _ _ lastRow Hd) by (try exact Hrow; lia).
    rewrite valueAt_outside by lia.
    destruct (nth (Z.to_nat (Z.of_nat i)) lastRow false); reflexivity.
Qed.

(** C1, as the code has it.  [renderUnicodeCompact] reads the two rows of a
    pair through the accessor with the default [true]: dark.  On a result of
    odd size [2k+1], the read of the row [y = size] therefore yields dark for
    every column.  The output is the lines of [compactLines], one per pair of
    rows, joined by newlines: it has [k+1] lines, and in the last one a dark
    module of the last row is the both-dark glyph (a space) and a light
    module is the upper-half glyph U+2580.  A last row that is all dark is
    rendered as spaces. *)
Theorem renderUnicodeCompact_odd_last_row {qrcode : Collaborator}
        (data : QrCodeGenerateData) (o : Options.t) (r : QrCodeGenerateResult)
        (k : Z) (lastRow : list bool) :
  encode data (Some o) = Ok r ->
  wfResult r -> 0 <= k -> Result.size r = 2 * k + 1 ->
  nth_error (Result.data r) (Z.to_nat (2 * k)) = Some lastRow ->
  (forall x, getDataAt (Result.data r) x (Result.size r) (Some true) = Ok (JBool true))
  /\ exists s,
       renderUnicodeCompact data (Some o) = Ok s
       /\ s = join newline (compactLines r)
       /\ length (split 10%N s) = Z.to_nat (k + 1)
       /\ nth_error (split 10%N s) (Z.to_nat k) = Some (map lastRowChar lastRow)
       /\ (Forall (fun m => m = true) lastRow ->
           nth_error (split 10%N s) (Z.to_nat k)
           = Some (repeat 32%N (Z.to_nat (Result.size r)))).
Proof.
  intros He Hwf Hk Hsize Hrow.
  pose proof Hwf as (Hsz & [Hlen Hrows] & _).
  split.
  - intro x. apply getDataAt_outside. lia.
  - exists (join newline (compactLines r)).
    split; [now apply renderUnicodeCompact_of_result|].
    assert (Hlines : compactLines r
                     = map (fun i => compactLine r (2 * Z.of_nat i))
                           (seq 0 (Z.to_nat (k + 1)))).
    { unfold compactLines. rewrite forRange_step2, map_map.
      replace ((Result.size r + 1) / 2) with (k + 1)
        by (rewrite Hsize; Z.div_mod_to_equations; lia).
      reflexivity. }
    assert (Hsplit : split 10%N (join newline (compactLines r)) = compactLines r).
    { apply split_join; [|apply compactLines_free].
      rewrite Hlines. replace (Z.to_nat (k + 1)) with (S (Z.to_nat k)) by lia.
      discriminate. }
    assert (Hlast : nth_error (compactLines r) (Z.to_nat k) = Some (map lastRowChar lastRow)).
    { rewrite Hlines, nth_error_map, nth_error_seq.
      destruct (Nat.ltb_spec (Z.to_nat k) (Z.to_nat (k + 1))) as [_|Hbad]; [|lia].
      cbn [option_map Nat.add]. rewrite Z2Nat.id by exact Hk.
      f_equal. now apply compactLine_last. }
    split; [reflexivity|].
    rewrite Hsplit. split; [|split; [exact Hlast|]].
    + now rewrite Hlines, length_map, length_seq.
    + intro Hdark. rewrite Hlast. f_equal.
      rewrite (lastRowChar_dark _ Hdark). f_equal.
      rewrite Forall_forall in Hrows. apply Hrows. eapply nth_error_In. exact Hrow.
Qed.

Lemma renderUnicodeCompact_odd_last_row_witness :
  Sample.encode Sample.three (DataString (lit "A")) (Some (Sample.withBorder 0))
  = Ok (rawResult Sample.three)
  /\ wfResult (rawResult Sample.three)
  /\ 0 <= 1
  /\ Result.size (rawResult Sample.three) = 2 * 1 + 1
  /\ nth_error (Result.data (rawResult Sample.three)) (Z.to_nat (2 * 1))
     = Some [true; true; true]
  /\ exists s,
       Sample.renderUnicodeCompact Sample.three (DataString (lit "A"))
                                   (Some (Sample.withBorder 0)) = Ok s
       /\ nth_error (split 10%N s) (Z.to_nat 1) = Some (map lastRowChar [true; true; true]).
Proof.
  assert (Hwf : wfResult (rawResult Sample.three)) by (apply wfResultb_wf; reflexivity).
  assert (Hk : 0 <= 1) by lia.
  split; [reflexivity|]. split; [exact Hwf|]. split; [exact Hk|].
  split; [reflexivity|]. split; [reflexivity|].
  destruct (@renderUnicodeCompact_odd_last_row (Sample.collaborator Sample.three)
              (DataString (lit "A")) (Sample.withBorder 0) (rawResult Sample.three)
              1 [true; true; true] eq_refl Hwf Hk eq_refl eq_refl)
    as (_ & s & Hs & _ & _ & Hlast & _).
  exists s. split; [exact Hs|exact Hlast].
Defined.

(** C1, as the claim has it, fails.  On a symbol of side 3 whose last row is
    dark, rendered without border, the read of row 3 yields dark, and the
    last line is three spaces, the both-dark glyph, not three upper-half
    glyphs. *)
Lemma renderUnicodeCompact_light_default_counterexample :
  Sample.renderUnicodeCompact Sample.three (DataString (lit "A"))
                              (Some (Sample.withBorder 0))
  = Ok [9604; 9608; 32; 10; 32; 32; 32]%N
  /\ getDataAt (QrCode.modules Sample.three) 0 3 (Some true) = Ok (JBool true)
  /\ ~ (forall (qrcode : Collaborator) (data : QrCodeGenerateData) (o : Options.t)
               (r : QrCodeGenerateResult) (k : Z) (lastRow : list bool),
          encode data (Some o) = Ok r ->
          wfResult r -> 0 <= k -> Result.size r = 2 * k + 1 ->
          nth_error (Result.data r) (Z.to_nat (2 * k)) = Some lastRow ->
          Forall (fun m => m = true) lastRow ->
          exists s,
            renderUnicodeCompact data (Some o) = Ok s
            /\ nth_error (split 10%N s) (Z.to_nat k)
               = Some (repeat 9600%N (Z.to_nat (Result.size r)))).
Proof.
  assert (Hout : Sample.renderUnicodeCompact Sample.three (DataString (lit "A"))
                                             (Some (Sample.withBorder 0))
                 = Ok [9604; 9608; 32; 10; 32; 32; 32]%N) by reflexivity.
  split; [exact Hout|]. split; [reflexivity|].
  intro H.
  destruct (H (Sample.collaborator Sample.three) (DataString (lit "A"))
              (Sample.withBorder 0) (rawResult Sample.three) 1 [true; true; true])
    as (s & Hs & Hlast);
    try reflexivity; try lia.
  - apply wfResultb_wf. reflexivity.
  - repeat constructor.
  - change (Sample.renderUnicodeCompact Sample.three (DataString (lit "A"))
                                        (Some (Sample.withBorder 0)) = Ok s) in Hs.
    rewrite Hout in Hs. injection Hs as <-. discriminate Hlast.
Qed.

(** ** The vector renderer *)

Lemma lit_cons (a : ascii) (s : string) : lit (String a s) = N_of_ascii a :: lit s.
Proof. reflexivity. Qed.

Lemma uint_chars (d : Decimal.uint) :
  Forall (fun c => isNumberChar c = true) (lit (NilEmpty.string_of_uint d)).
Proof.
  induction d; cbn [NilEmpty.string_of_uint]; [constructor|..];
    rewrite lit_cons; constructor; (reflexivity || exact IHd).
Qed.

Lemma decimal_chars (n : Z) :
  Forall (fun c => isNumberChar c = true) (decimal n).
Proof.
  unfold decimal, NilZero.string_of_int, NilZero.string_of_uint.
  destruct (Z.to_int n) as [d|d].
  - destruct d; try apply uint_chars. repeat constructor.
  - rewrite lit_cons. constructor; [reflexivity|].
    destruct d; try apply uint_chars. repeat constructor.
Qed.

Lemma isNumberChar_not_command (c : N) : isNumberChar c = true -> isCommand c = false.
Proof.
  intro H. unfold isCommand. apply not_true_is_false. intro Hex.
  apply existsb_exists in Hex. destruct Hex as [x [Hin Heq]].
  apply N.eqb_eq in Heq. subst x.
  repeat (destruct Hin as [<-|Hin]; [discriminate H|]). exact Hin.
Qed.

Lemma isNumberChar_not_tag (c : N) : isNumberChar c = true -> c <> 60%N.
Proof. intros H ->. discriminate H. Qed.

Lemma commandCount_app (a b : jsstring) :
  commandCount (a ++ b) = (commandCount a + commandCount b)%nat.
Proof. unfold commandCount. now rewrite filter_app, length_app. Qed.

Lemma commandCount_decimal (n : Z) : commandCount (decimal n) = 0%nat.
Proof.
  unfold commandCount.
  induction (decimal_chars n) as [|c s Hc _ IH]; [reflexivity|].
  cbn [filter]. now rewrite (isNumberChar_not_command c Hc).
Qed.

(** A square is the five commands M, h, v, h and z. *)
Lemma commandCount_squarePath (x y side : Z) : commandCount (squarePath x y side) = 5%nat.
Proof.
  unfold squarePath. rewrite !commandCount_app, !commandCount_decimal. reflexivity.
Qed.

Lemma commandCount_concat (paths : list jsstring) (k : nat) :
  Forall (fun p => commandCount p = k) paths ->
  commandCount (concat paths) = (k * length paths)%nat.
Proof.
  induction 1 as [|p paths Hp _ IH].
  - cbn [concat length]. now rewrite Nat.mul_0_r.
  - cbn [concat length]. rewrite commandCount_app, Hp, IH. lia.
Qed.

Lemma rowPaths_squares (side row col : Z) (cells : list bool) :
  Forall (fun p => commandCount p = 5%nat) (rowPaths side row col cells).
Proof.
  revert col. induction cells as [|m rest IH]; intro col; [constructor|].
  cbn [rowPaths]. apply Forall_app. split; [|apply IH].
  destruct m; repeat constructor. apply commandCount_squarePath.
Qed.

Lemma gridPaths_squares (side row : Z) (grid : list (list bool)) :
  Forall (fun p => commandCount p = 5%nat) (gridPaths side row grid).
Proof.
  revert row. induction grid as [|cells rest IH]; intro row; [constructor|].
  cbn [gridPaths]. apply Forall_app. split; [apply rowPaths_squares|apply IH].
Qed.

Lemma rowPaths_length (side row col : Z) (cells : list bool) :
  length (rowPaths side row col cells) = length (filter (fun m : bool => m) cells).
Proof.
  revert col. induction cells as [|m rest IH]; intro col; [reflexivity|].
  cbn [rowPaths filter]. rewrite length_app, IH. destruct m; reflexivity.
Qed.

(** As many squares as dark modules. *)
Lemma gridPaths_length (side row : Z) (grid : list (list bool)) :
  length (gridPaths side row grid) = darkCount grid.
Proof.
  unfold darkCount. revert row.
  induction grid as [|cells rest IH]; intro row; [reflexivity|].
  cbn [gridPaths concat]. now rewrite length_app, filter_app, length_app, rowPaths_length, IH.
Qed.

(** *** The two loops and the squares of the grid *)

Lemma flat_map_map {A B C : Type} (g : A -> B) (f : B -> list C) (l : list A) :
  flat_map f (map g l) = flat_map (fun a => f (g a)) l.
Proof. induction l as [|a l IH]; [reflexivity|]. cbn [map flat_map]. now rewrite IH. Qed.

Lemma flat_map_ext_in {A B : Type} (f g : A -> list B) (l : list A) :
  (forall a, In a l -> f a = g a) -> flat_map f l = flat_map g l.
Proof.
  induction l as [|a l IH]; intro H; [reflexivity|].
  cbn [flat_map]. rewrite (H a) by (now left). rewrite IH; [reflexivity|].
  intros b Hb. apply H. now right.
Qed.

Lemma rowPaths_by_index (side row col : Z) (cells : list bool) :
  rowPaths side row col cells
  = flat_map (fun j => if nth j cells false
                       then [squarePath ((col + Z.of_nat j) * side) (row * side) side]
                       else [])
             (seq 0 (length cells)).
Proof.
  revert col. induction cells as [|m rest IH]; intro col; [reflexivity|].
  cbn [rowPaths length seq flat_map nth]. f_equal.
  - now rewrite Z.add_0_r.
  - rewrite IH, <- seq_shift, flat_map_map. apply flat_map_ext_in. intros j _.
    cbn [nth]. replace (col + 1 + Z.of_nat j) with (col + Z.of_nat (S j)) by lia.
    reflexivity.
Qed.

Lemma gridPaths_by_index (side row : Z) (grid : list (list bool)) :
  gridPaths side row grid
  = flat_map (fun i => rowPaths side (row + Z.of_nat i) 0 (nth i grid []))
             (seq 0 (length grid)).
Proof.
  revert row. induction grid as [|cells rest IH]; intro row; [reflexivity|].
  cbn [gridPaths length seq flat_map nth]. f_equal.
  - now rewrite Z.add_0_r.
  - rewrite IH, <- seq_shift, flat_map_map. apply flat_map_ext_in. intros i _.
    cbn [nth]. replace (row + 1 + Z.of_nat i) with (row + Z.of_nat (S i)) by lia.
    reflexivity.
Qed.

Lemma darkAt_nth (grid : list (list bool)) (i j : nat) :
  darkAt grid (Z.of_nat i) (Z.of_nat j) = nth j (nth i grid []) false.
Proof.
  unfold darkAt, at2. rewrite !Nat2Z.id.
  destruct (nth_error grid i) as [row|] eqn:Hrow.
  - rewrite (nth_error_nth _ _ _ Hrow).
    destruct (nth_error row j) as [b|] eqn:Hb.
    + now rewrite (nth_error_nth _ _ _ Hb).
    + apply nth_error_None in Hb. now rewrite nth_overflow.
  - apply nth_error_None in Hrow. rewrite (nth_overflow grid [] Hrow).
    now destruct j.
Qed.

(** The cells visited by the two loops over a square grid, in their order,
    are the cells of the grid row by row. *)
Lemma loops_gridPaths (n : nat) (grid : list (list bool)) (side : Z) :
  square n grid ->
  flat_map (fun row =>
              flat_map (fun col =>
                          if darkAt grid row col
                          then [squarePath (col * side) (row * side) side]
                          else [])
                       (forRange 0 (Z.of_nat n) 1))
           (forRange 0 (Z.of_nat n) 1)
  = gridPaths side 0 grid.
Proof.
  intros [Hlen Hrows]. rewrite forRange_step1, Nat2Z.id, flat_map_map.
  rewrite gridPaths_by_index, Hlen. apply flat_map_ext_in. intros i Hi.
  apply in_seq in Hi.
  assert (Hrl : length (nth i grid []) = n).
  { rewrite Forall_forall in Hrows. apply Hrows. apply nth_In. lia. }
  rewrite flat_map_map, rowPaths_by_index, Hrl. apply flat_map_ext_in. intros j _.
  now rewrite darkAt_nth, !Z.add_0_l.
Qed.

Lemma in_forRange_step1 (n x : Z) : In x (forRange 0 n 1) -> 0 <= x < n.
Proof.
  rewrite forRange_step1. intro Hin. apply in_map_iff in Hin.
  destruct Hin as [i [<- Hi]]. apply in_seq in Hi. lia.
Qed.

Lemma index2_square (n : nat) (grid : list (list bool)) (row col : Z) :
  square n grid -> 0 <= row < Z.of_nat n -> 0 <= col < Z.of_nat n ->
  index2 grid row col = Ok (JBool (darkAt grid row col)).
Proof.
  intros Hsq Hrow Hcol.
  destruct (square_at2 n grid (Z.to_nat row) (Z.to_nat col) Hsq) as [b Hb]; [lia|lia|].
  unfold darkAt. rewrite Hb. unfold at2 in Hb.
  destruct (nth_error grid (Z.to_nat row)) as [cells|] eqn:Hcells; [|discriminate].
  eapply index2_in_range; eassumption.
Qed.

(** *** Safe integers *)

Lemma safeb_safe (z : Z) : safeb z = true -> safe z.
Proof. unfold safeb, safe. apply Z.leb_le. Qed.

Lemma safe_index (n k : Z) : 0 <= k < n -> safe n -> safe k.
Proof. unfold safe. lia. Qed.

Lemma safe_multiple (n k p : Z) : 0 <= k < n -> safe (n * p) -> safe (k * p).
Proof.
  unfold safe. intros Hk Hn. rewrite Z.abs_mul in *.
  assert (Z.abs k <= Z.abs n) by lia.
  assert (0 <= Z.abs p) by lia. nia.
Qed.

Section VectorRenderer.

Context {engine : Engine} {laws : SafeIntegers engine}.

(** On safe integers the template of line 33 is the square. *)
Lemma subpath_safe (x y side : Z) :
  safe x -> safe y -> safe side ->
  subpath (integer x) (integer y) (integer side) = squarePath x y side.
Proof.
  intros Hx Hy Hs. unfold subpath, squarePath. now rewrite !toString_safe.
Qed.

Lemma svgOpen_safe (width height : Z) :
  safe width -> safe height ->
  svgOpen (integer width) (integer height) = expectedOpen width height.
Proof. intros Hw Hh. unfold svgOpen, expectedOpen. now rewrite !toString_safe. Qed.

Lemma svgRect_safe (fill : jsstring) (width height : Z) :
  safe width -> safe height ->
  svgRect fill (integer width) (integer height) = expectedRect fill width height.
Proof. intros Hw Hh. unfold svgRect, expectedRect. now rewrite !toString_safe. Qed.

Lemma svgCell_square (r : QrCodeGenerateResult) (side row col : Z)
      (pathes : list jsstring) :
  wfResult r -> safe side -> safe (Result.size r) -> safe (Result.size r * side) ->
  0 <= row < Result.size r -> 0 <= col < Result.size r ->
  svgCell (Result.data r) (integer side) row pathes col
  = Ok (pathes ++ (if darkAt (Result.data r) row col
                   then [squarePath (col * side) (row * side) side]
                   else [])).
Proof.
  intros (Hsz & Hd & _) Hs Hn Hns Hrow Hcol. unfold svgCell.
  rewrite (index2_square _ _ _ _ Hd) by lia. cbn [bind truthy].
  destruct (darkAt (Result.data r) row col); [|now rewrite app_nil_r].
  rewrite !times_safe
    by first [ exact Hs
             | eapply safe_index; eassumption
             | eapply safe_multiple; eassumption ].
  rewrite subpath_safe
    by first [ exact Hs | eapply safe_multiple; eassumption ].
  reflexivity.
Qed.

Lemma svgRows_paths (r : QrCodeGenerateResult) (side : Z) :
  wfResult r -> safe side -> safe (Result.size r) -> safe (Result.size r * side) ->
  foldM (svgRow (Result.data r) (integer side) (Result.size r))
        (forRange 0 (Result.size r) 1) []
  = Ok (gridPaths side 0 (Result.data r)).
Proof.
  intros Hwf Hs Hn Hns. pose proof Hwf as (Hsz & Hd & _).
  rewrite <- (loops_gridPaths _ _ side Hd), Z2Nat.id by exact Hsz.
  rewrite (foldM_pure _ (fun acc row =>
             acc ++ flat_map (fun col =>
                                if darkAt (Result.data r) row col
                                then [squarePath (col * side) (row * side) side]
                                else [])
                             (forRange 0 (Result.size r) 1))).
  - now rewrite fold_left_snoc.
  - intros acc row Hrow. apply in_forRange_step1 in Hrow. unfold svgRow.
    rewrite (foldM_pure _ (fun acc' col =>
               acc' ++ (if darkAt (Result.data r) row col
                        then [squarePath (col * side) (row * side) side]
                        else []))).
    + now rewrite fold_left_snoc.
    + intros acc' col Hcol. apply in_forRange_step1 in Hcol.
      now apply svgCell_square.
Qed.

(** On a result that satisfies the invariant, and for a pixel size that is
    an integer with safe products, the output is the expected markup. *)
Lemma renderSVG_of_result {qrcode : Collaborator}
      (data : QrCodeGenerateData) (o : Options.t) (r : QrCodeGenerateResult) (side : Z) :
  encode data (Some o) = Ok r -> wfResult r ->
  orDefault (integer 10) (Options.pixelSize o) = integer side ->
  safe side -> safe (Result.size r) -> safe (Result.size r * side) ->
  renderSVG data (Some o)
  = Ok (expectedOpen (Result.size r * side) (Result.size r * side)
        ++ expectedRect (orDefault (lit "white") (Options.whiteColor o))
                        (Result.size r * side) (Result.size r * side)
        ++ expectedPath (orDefault (lit "black") (Options.blackColor o))
                        (concat (gridPaths side 0 (Result.data r)))
        ++ lit "</svg>").
Proof.
  intros He Hwf Hp Hs Hn Hns. unfold renderSVG. cbv zeta.
  change (orDefault Options.empty (Some o)) with o.
  rewrite He. cbn [bind]. rewrite Hp.
  rewrite svgRows_paths by assumption. cbn [bind].
  rewrite times_safe by assumption.
  rewrite svgOpen_safe, svgRect_safe by assumption.
  rewrite join_empty_concat, <- !app_assoc. reflexivity.
Qed.

End VectorRenderer.

(** *** Counting the tags *)

Lemma occurrences_cons_other (c : N) (pat s : jsstring) (x : N) :
  x <> c -> occurrences (c :: pat) (x :: s) = occurrences (c :: pat) s.
Proof.
  intro Hx. cbn [occurrences startsWith].
  destruct (N.eqb_spec c x) as [->|_]; [contradiction|reflexivity].
Qed.

Lemma occurrences_cons_same (c : N) (pat s : jsstring) :
  occurrences (c :: pat) (c :: s)
  = ((if startsWith pat s then 1 else 0) + occurrences (c :: pat) s)%nat.
Proof. cbn [occurrences startsWith]. now rewrite N.eqb_refl. Qed.

Lemma occurrences_free (c : N) (pat v s : jsstring) :
  ~ In c v -> occurrences (c :: pat) (v ++ s) = occurrences (c :: pat) s.
Proof.
  induction v as [|x v IH]; intro Hfree; [reflexivity|].
  cbn [app]. rewrite occurrences_cons_other by (intros ->; apply Hfree; now left).
  apply IH. intro Hin. apply Hfree. now right.
Qed.

Lemma decimal_tagFree (n : Z) : tagFree (decimal n).
Proof.
  intro Hin. pose proof (decimal_chars n) as Hall.
  rewrite Forall_forall in Hall. exact (isNumberChar_not_tag _ (Hall _ Hin) eq_refl).
Qed.

Lemma tagFree_app (a b : jsstring) : tagFree a -> tagFree b -> tagFree (a ++ b).
Proof.
  intros Ha Hb Hin. apply in_app_or in Hin. destruct Hin; [now apply Ha|now apply Hb].
Qed.

Lemma tagFree_concat (parts : list jsstring) : Forall tagFree parts -> tagFree (concat parts).
Proof.
  induction 1 as [|p parts Hp _ IH]; [intros []|].
  cbn [concat]. now apply tagFree_app.
Qed.

Lemma tagFree_letters (s : jsstring) : forallb (fun c => negb (N.eqb c 60)) s = true -> tagFree s.
Proof.
  intros Hall Hin. rewrite forallb_forall in Hall. specialize (Hall _ Hin). discriminate Hall.
Qed.

Lemma squarePath_tagFree (x y side : Z) : tagFree (squarePath x y side).
Proof.
  unfold squarePath.
  repeat first [ apply tagFree_app
               | apply decimal_tagFree
               | apply tagFree_letters; reflexivity ].
Qed.

Lemma rowPaths_tagFree (side row col : Z) (cells : list bool) :
  Forall tagFree (rowPaths side row col cells).
Proof.
  revert col. induction cells as [|m rest IH]; intro col; [constructor|].
  cbn [rowPaths]. apply Forall_app. split; [|apply IH].
  destruct m; repeat constructor. apply squarePath_tagFree.
Qed.

Lemma gridPaths_tagFree (side row : Z) (grid : list (list bool)) :
  tagFree (concat (gridPaths side row grid)).
Proof.
  apply tagFree_concat. revert row.
  induction grid as [|cells rest IH]; intro row; [constructor|].
  cbn [gridPaths]. apply Forall_app. split; [apply rowPaths_tagFree|apply IH].
Qed.

(** Replace the literals of the goal by their code units. *)
Ltac expand_literals :=
  repeat match goal with
         | |- context [lit ?s] =>
             let v := eval vm_compute in (lit s) in change (lit s) with v
         end;
  cbn [app].

(** Walk through a string made of code units and tag-free parts. *)
Ltac count_tags :=
  repeat first
    [ rewrite occurrences_cons_other by discriminate
    | rewrite occurrences_cons_same; cbn [startsWith N.eqb Pos.eqb andb Nat.add]
    | rewrite occurrences_free
        by first [ assumption | apply decimal_tagFree ] ];
  reflexivity.

Lemma svg_one_of_each (whiteColor blackColor d : jsstring) (width height : Z) :
  tagFree whiteColor -> tagFree blackColor -> tagFree d ->
  let out := expectedOpen width height ++ expectedRect whiteColor width height
             ++ expectedPath blackColor d ++ lit "</svg>" in
  occurrences (lit "<svg") out = 1%nat
  /\ occurrences (lit "<rect") out = 1%nat
  /\ occurrences (lit "<path") out = 1%nat.
Proof.
  intros Hw Hb Hd. cbv zeta. unfold expectedOpen, expectedRect, expectedPath, quote.
  rewrite <- !app_assoc. expand_literals.
  split; [|split]; count_tags.
Qed.

(** C3, as the code has it.  Take an encoded result that satisfies the
    invariant of the data model and a pixel size that is an integer, such
    that the pixel size, the size and their product are safe integers.  The
    output of [renderSVG] is then: the opening [<svg>] tag with the viewBox
    [0 0 width height], where [width = height = size * pixelSize]; one
    [<rect>] filled with [whiteColor], of that width and height; one [<path>]
    filled with [blackColor]; and the closing tag.  The path data is, row by
    row, one square per dark module: for the module at [(row, col)] the five
    commands M, h, v, h, z from [(col * pixelSize, row * pixelSize)] with the
    side [pixelSize].  The number of path commands is 5 times the number of
    dark modules.  When neither colour contains the character [<], the
    output has exactly one occurrence of each of [<svg], [<rect] and
    [<path]. *)
Theorem renderSVG_structure {qrcode : Collaborator} {engine : Engine}
        {laws : SafeIntegers engine}
        (data : QrCodeGenerateData) (o : Options.t) (r : QrCodeGenerateResult)
        (pixelSize : Z) :
  encode data (Some o) = Ok r -> wfResult r ->
  orDefault (integer 10) (Options.pixelSize o) = integer pixelSize ->
  safe pixelSize -> safe (Result.size r) -> safe (Result.size r * pixelSize) ->
  let whiteColor := orDefault (lit "white") (Options.whiteColor o) in
  let blackColor := orDefault (lit "black") (Options.blackColor o) in
  let width := Result.size r * pixelSize in
  let height := Result.size r * pixelSize in
  let d := concat (gridPaths pixelSize 0 (Result.data r)) in
  let out := expectedOpen width height ++ expectedRect whiteColor width height
             ++ expectedPath blackColor d ++ lit "</svg>" in
  renderSVG data (Some o) = Ok out
  /\ commandCount d = (5 * darkCount (Result.data r))%nat
  /\ (tagFree whiteColor -> tagFree blackColor ->
      occurrences (lit "<svg") out = 1%nat
      /\ occurrences (lit "<rect") out = 1%nat
      /\ occurrences (lit "<path") out = 1%nat).
Proof.
  intros He Hwf Hp Hs Hn Hns. cbv zeta. split; [|split].
  - now apply renderSVG_of_result.
  - rewrite (commandCount_concat _ 5) by apply gridPaths_squares.
    now rewrite gridPaths_length.
  - intros Hw Hb. apply svg_one_of_each; [exact Hw|exact Hb|apply gridPaths_tagFree].
Qed.

(** The engine of the examples is exact on safe integers. *)
Lemma sample_engine_safe : SafeIntegers Sample.engine.
Proof. split; intros; reflexivity. Qed.

Lemma renderSVG_structure_witness :
  Sample.encode Sample.dot (DataString (lit "A")) (Some (Sample.withBorder 0))
  = Ok (rawResult Sample.dot)
  /\ wfResult (rawResult Sample.dot)
  /\ orDefault (integer 10) (Options.pixelSize (Sample.withBorder 0)) = integer 10
  /\ safe 10 /\ safe (Result.size (rawResult Sample.dot))
  /\ safe (Result.size (rawResult Sample.dot) * 10)
  /\ Sample.renderSVG Sample.dot (DataString (lit "A")) (Some (Sample.withBorder 0))
     = Ok (expectedOpen 10 10 ++ expectedRect (lit "white") 10 10
           ++ expectedPath (lit "black") (lit "M0,0h10v10h-10z") ++ lit "</svg>")
  /\ commandCount (lit "M0,0h10v10h-10z") = 5%nat.
Proof.
  assert (Hwf : wfResult (rawResult Sample.dot)) by (apply wfResultb_wf; reflexivity).
  assert (Hs : safe 10) by (apply safeb_safe; reflexivity).
  assert (Hn : safe (Result.size (rawResult Sample.dot))) by (apply safeb_safe; reflexivity).
  assert (Hns : safe (Result.size (rawResult Sample.dot) * 10))
    by (apply safeb_safe; reflexivity).
  split; [reflexivity|]. split; [exact Hwf|]. split; [reflexivity|].
  split; [exact Hs|]. split; [exact Hn|]. split; [exact Hns|].
  destruct (@renderSVG_structure (Sample.collaborator Sample.dot) Sample.engine
              sample_engine_safe (DataString (lit "A"))
              (Sample.withBorder 0) (rawResult Sample.dot) 10
              eq_refl Hwf eq_refl Hs Hn Hns)
    as (Hout & Hcount & _).
  split; [exact Hout|exact Hcount].
Defined.

(** C3, as the claim has it, fails.  The path of a symbol of one dark module
    has five commands, not four; and a colour that contains [<path] puts a
    second occurrence of it in the output. *)
Lemma renderSVG_four_commands_counterexample :
  Sample.renderSVG Sample.dot (DataString (lit "A")) (Some (Sample.withBorder 0))
  = Ok (expectedOpen 10 10 ++ expectedRect (lit "white") 10 10
        ++ expectedPath (lit "black") (lit "M0,0h10v10h-10z") ++ lit "</svg>")
  /\ commandCount (lit "M0,0h10v10h-10z") = 5%nat
  /\ darkCount (QrCode.modules Sample.dot) = 1%nat
  /\ ~ (forall (qrcode : Collaborator) (engine : Engine) (laws : SafeIntegers engine)
               (data : QrCodeGenerateData) (o : Options.t)
               (r : QrCodeGenerateResult) (pixelSize : Z),
          encode data (Some o) = Ok r -> wfResult r ->
          orDefault (integer 10) (Options.pixelSize o) = integer pixelSize ->
          safe pixelSize -> safe (Result.size r) -> safe (Result.size r * pixelSize) ->
          exists d,
            renderSVG data (Some o)
            = Ok (expectedOpen (Result.size r * pixelSize) (Result.size r * pixelSize)
                  ++ expectedRect (orDefault (lit "white") (Options.whiteColor o))
                                  (Result.size r * pixelSize) (Result.size r * pixelSize)
                  ++ expectedPath (orDefault (lit "black") (Options.blackColor o)) d
                  ++ lit "</svg>")
            /\ commandCount d = (4 * darkCount (Result.data r))%nat)
  /\ (exists out,
        Sample.renderSVG Sample.dot (DataString (lit "A"))
                         (Some (Sample.withWhiteColor (lit "<path")))
        = Ok out
        /\ occurrences (lit "<path") out = 2%nat).
Proof.
  assert (Hout : Sample.renderSVG Sample.dot (DataString (lit "A"))
                                  (Some (Sample.withBorder 0))
                 = Ok (expectedOpen 10 10 ++ expectedRect (lit "white") 10 10
                       ++ expectedPath (lit "black") (lit "M0,0h10v10h-10z")
                       ++ lit "</svg>"))
    by reflexivity.
  split; [exact Hout|]. split; [reflexivity|]. split; [reflexivity|]. split.
  - intro H.
    assert (Hwf : wfResult (rawResult Sample.dot)) by (apply wfResultb_wf; reflexivity).
    assert (Hs : safe 10) by (apply safeb_safe; reflexivity).
    assert (Hn : safe (Result.size (rawResult Sample.dot)))
      by (apply safeb_safe; reflexivity).
    assert (Hns : safe (Result.size (rawResult Sample.dot) * 10))
      by (apply safeb_safe; reflexivity).
    destruct (H (Sample.collaborator Sample.dot) Sample.engine sample_engine_safe
                (DataString (lit "A")) (Sample.withBorder 0) (rawResult Sample.dot) 10
                eq_refl Hwf eq_refl Hs Hn Hns)
      as (d & Hd & Hcount).
    change (Sample.renderSVG Sample.dot (DataString (lit "A"))
                             (Some (Sample.withBorder 0)) = Ok
              (expectedOpen 10 10 ++ expectedRect (lit "white") 10 10
               ++ expectedPath (lit "black") d ++ lit "</svg>")) in Hd.
    rewrite Hout in Hd. injection Hd as Hd.
    unfold expectedPath in Hd. rewrite <- !app_assoc in Hd.
    apply (app_inv_tail ([quote] ++ lit "/>" ++ lit "</svg>") (lit "M0,0h10v10h-10z") d) in Hd.
    subst d. discriminate Hcount.
  - eexists. split; [reflexivity|]. reflexivity.
Qed.

(** * Further properties of the code *)

(** ** The accessor on a ragged grid *)

(** X17.  When both coordinates pass the bounds test but row [y] is shorter
    than [x], the accessor returns [undefined], not the default. *)
Theorem getDataAt_short_row
        (grid : list (list bool)) (x y : Z) (d : option bool) (row : list bool) :
  0 <= x < Z.of_nat (length grid) -> 0 <= y < Z.of_nat (length grid) ->
  nth_error grid (Z.to_nat y) = Some row ->
  Z.of_nat (length row) <= x ->
  getDataAt grid x y d = Ok JUndefined.
Proof.
  intros Hx Hy Hrow Hshort. rewrite getDataAt_inside by assumption.
  unfold index2. rewrite Hrow.
  destruct (nth_error row (Z.to_nat x)) as [b|] eqn:Hb; [|reflexivity].
  assert (Z.to_nat x < length row)%nat by (apply nth_error_Some; congruence). lia.
Qed.

Lemma getDataAt_short_row_witness :
  0 <= 1 < Z.of_nat (length Cases.ragged)
  /\ nth_error Cases.ragged (Z.to_nat 1) = Some [false]
  /\ getDataAt Cases.ragged 1 1 (Some true) = Ok JUndefined.
Proof.
  assert (H : 0 <= 1 < Z.of_nat (length Cases.ragged)) by (simpl; lia).
  split; [exact H|]. split; [reflexivity|].
  apply (getDataAt_short_row Cases.ragged 1 1 (Some true) [false] H H eq_refl).
  simpl. lia.
Defined.

(** ** More on the border *)

Lemma bordered_zero {A : Type} (fill : A) (border newSize : Z) (grid : list (list A)) :
  border <= 0 -> bordered fill border newSize grid = grid.
Proof.
  intro Hb. unfold bordered, padGrid, padRow.
  replace (Z.to_nat border) with 0%nat by lia. cbn [Nat.iter nat_rect].
  apply map_id.
Qed.

Lemma addBorder_negative_eq (input : QrCodeGenerateResult) (b : Z) :
  b < 0 ->
  addBorder input (Some b)
  = Result.mk (Result.version input) (Result.maskPattern input)
              (Result.size input + b * 2) (Result.data input) (Result.types input).
Proof.
  intro Hb. rewrite addBorder_positive by lia.
  now rewrite !bordered_zero by lia.
Qed.

(** X5.  A negative border changes the size and nothing else: the result
    announces [size + 2b] while both grids stay as they were, so a result
    that satisfied the invariant of the data model no longer does. *)
Theorem addBorder_negative (input : QrCodeGenerateResult) (b : Z) :
  b < 0 ->
  Result.size (addBorder input (Some b)) = Result.size input + 2 * b
  /\ Result.data (addBorder input (Some b)) = Result.data input
  /\ Result.types (addBorder input (Some b)) = Result.types input
  /\ (wfResult input -> ~ wfResult (addBorder input (Some b))).
Proof.
  intro Hb. rewrite addBorder_negative_eq by exact Hb.
  cbn [Result.size Result.data Result.types].
  split; [lia|]. split; [reflexivity|]. split; [reflexivity|].
  intros (Hsz & [Hlen _] & _) (Hsz' & [Hlen' _] & _).
  cbn [Result.size Result.data] in *. lia.
Qed.

Lemma addBorder_negative_witness :
  -1 < 0
  /\ wfResult (rawResult Sample.three)
  /\ Result.size (addBorder (rawResult Sample.three) (Some (-1))) = 1
  /\ length (Result.data (addBorder (rawResult Sample.three) (Some (-1)))) = 3%nat.
Proof.
  assert (Hb : -1 < 0) by lia.
  destruct (addBorder_negative (rawResult Sample.three) (-1) Hb) as (Hsize & Hdata & _).
  split; [exact Hb|]. split; [apply wfResultb_wf; reflexivity|].
  split; [exact Hsize|]. rewrite Hdata. reflexivity.
Defined.

Lemma pad_twice {A : Type} (x : A) (ka kb : nat) (l : list A) :
  repeat x kb ++ (repeat x ka ++ l ++ repeat x ka) ++ repeat x kb
  = repeat x (kb + ka) ++ l ++ repeat x (ka + kb).
Proof. rewrite !repeat_app, <- !app_assoc. reflexivity. Qed.

Lemma padRow_padRow {A : Type} (fill : A) (a b : Z) (row : list A) :
  0 <= a -> 0 <= b ->
  padRow fill b (padRow fill a row) = padRow fill (a + b) row.
Proof.
  intros Ha Hb. rewrite !padRow_eq, pad_twice.
  replace (Z.to_nat b + Z.to_nat a)%nat with (Z.to_nat (a + b)) by lia.
  replace (Z.to_nat a + Z.to_nat b)%nat with (Z.to_nat (a + b)) by lia.
  reflexivity.
Qed.

Lemma padRow_fresh {A : Type} (fill : A) (b n : Z) :
  0 <= b -> 0 <= n ->
  padRow fill b (arrayFrom n fill) = arrayFrom (n + b * 2) fill.
Proof.
  intros Hb Hn. rewrite padRow_eq. unfold arrayFrom.
  rewrite <- !repeat_app. f_equal. lia.
Qed.

Lemma map_repeat {A B : Type} (f : A -> B) (a : A) (k : nat) :
  map f (repeat a k) = repeat (f a) k.
Proof. induction k as [|k IH]; simpl; [reflexivity|now rewrite IH]. Qed.

Lemma bordered_bordered {A : Type} (fill : A) (a b n : Z) (grid : list (list A)) :
  0 <= a -> 0 <= b -> 0 <= n ->
  bordered fill b (n + a * 2 + b * 2) (bordered fill a (n + a * 2) grid)
  = bordered fill (a + b) (n + (a + b) * 2) grid.
Proof.
  intros Ha Hb Hn. unfold bordered. rewrite !padGrid_eq.
  rewrite !map_app, map_map, !map_repeat.
  rewrite padRow_fresh by lia.
  replace (n + (a + b) * 2) with (n + a * 2 + b * 2) by lia.
  rewrite pad_twice.
  replace (Z.to_nat b + Z.to_nat a)%nat with (Z.to_nat (a + b)) by lia.
  replace (Z.to_nat a + Z.to_nat b)%nat with (Z.to_nat (a + b)) by lia.
  do 2 f_equal. apply map_ext. intro row. now apply padRow_padRow.
Qed.

(** X6.  Two borders in sequence are one border of their sum: for widths
    [a >= 0] and [b >= 0] and a size [>= 0], adding [a] and then [b] gives the
    result of adding [a + b]. *)
Theorem addBorder_compose (input : QrCodeGenerateResult) (a b : Z) :
  0 <= a -> 0 <= b -> 0 <= Result.size input ->
  addBorder (addBorder input (Some a)) (Some b) = addBorder input (Some (a + b)).
Proof.
  intros Ha Hb Hsz.
  destruct (Z.eq_dec a 0) as [->|Hanz]; [reflexivity|].
  destruct (Z.eq_dec b 0) as [->|Hbnz].
  - rewrite Z.add_0_r. reflexivity.
  - rewrite (addBorder_positive input a) by exact Hanz.
    rewrite addBorder_positive by exact Hbnz.
    rewrite (addBorder_positive input (a + b)) by lia.
    cbn [Result.version Result.maskPattern Result.size Result.data Result.types].
    rewrite !bordered_bordered by lia.
    f_equal. lia.
Qed.

Lemma addBorder_compose_witness :
  0 <= 1 /\ 0 <= 2 /\ 0 <= Result.size (rawResult Sample.dot)
  /\ addBorder (addBorder (rawResult Sample.dot) (Some 1)) (Some 2)
     = addBorder (rawResult Sample.dot) (Some 3).
Proof.
  assert (Ha : 0 <= 1) by lia. assert (Hb : 0 <= 2) by lia.
  assert (Hs : 0 <= Result.size (rawResult Sample.dot)) by (simpl; lia).
  split; [exact Ha|]. split; [exact Hb|]. split; [exact Hs|].
  exact (addBorder_compose (rawResult Sample.dot) 1 2 Ha Hb Hs).
Defined.

(** ** Dark modules *)

Lemma dark_repeat_false (k : nat) : filter (fun m : bool => m) (repeat false k) = [].
Proof. induction k as [|k IH]; [reflexivity|exact IH]. Qed.

Lemma dark_padRow (border : Z) (row : list bool) :
  filter (fun m : bool => m) (padRow false border row) = filter (fun m : bool => m) row.
Proof.
  rewrite padRow_eq, !filter_app, dark_repeat_false. now rewrite app_nil_r.
Qed.

Lemma dark_fresh_rows (n : Z) (k : nat) :
  filter (fun m : bool => m) (concat (repeat (arrayFrom n false) k)) = [].
Proof.
  induction k as [|k IH]; [reflexivity|].
  cbn [repeat concat]. rewrite filter_app, IH. unfold arrayFrom.
  now rewrite dark_repeat_false.
Qed.

Lemma darkCount_bordered (border newSize : Z) (grid : list (list bool)) :
  darkCount (bordered false border newSize grid) = darkCount grid.
Proof.
  unfold darkCount, bordered. rewrite padGrid_eq, !concat_app, !filter_app.
  rewrite !dark_fresh_rows, app_nil_r. cbn [app]. f_equal.
  induction grid as [|row rows IH]; [reflexivity|].
  cbn [map concat]. now rewrite !filter_app, dark_padRow, IH.
Qed.

(** X7.  The border adds no dark module: whatever the width, the bordered
    result has as many dark modules as the input. *)
Theorem addBorder_keeps_dark_count (input : QrCodeGenerateResult) (b : option Z) :
  darkCount (Result.data (addBorder input b)) = darkCount (Result.data input).
Proof.
  destruct (Z.eq_dec (orDefault 1 b) 0) as [Hz|Hnz].
  - unfold addBorder. rewrite Hz. reflexivity.
  - replace (addBorder input b) with (addBorder input (Some (orDefault 1 b)))
      by (destruct b; reflexivity).
    rewrite addBorder_positive by exact Hnz. cbn [Result.data].
    apply darkCount_bordered.
Qed.

Lemma dark_light_row (row : list bool) :
  (length (filter (fun m : bool => m) (map (fun m => negb m) row))
   + length (filter (fun m : bool => m) row) = length row)%nat.
Proof.
  induction row as [|m row IH]; [reflexivity|].
  destruct m; cbn [map filter negb length]; lia.
Qed.

(** X8.  Inversion exchanges dark and light: the dark modules of the
    inverted grid and those of the grid together are all the modules. *)
Theorem invertData_dark_count (grid : list (list bool)) :
  (darkCount (invertData grid) + darkCount grid = length (concat grid))%nat.
Proof.
  unfold darkCount, invertData.
  induction grid as [|row rows IH]; [reflexivity|].
  cbn [map concat]. rewrite !filter_app, !length_app.
  pose proof (dark_light_row row). lia.
Qed.

(** ** More on the orchestrator *)

Section OrchestratorMore.

Context {qrcode : Collaborator} {engine : Engine}.

(** X1.  An input that is neither a string nor an array makes [encode], and
    with it each of the four renderers, throw the error of line 32, whose
    message ends with the [typeof] of the input; this holds for all options
    and every collaborator, which has no part in it. *)
Theorem encode_unsupported_input (typeOf : jsstring) (options : option Options.t) :
  encode (DataOther typeOf) options = Throw (unsupported typeOf)
  /\ renderUnicode (DataOther typeOf) options = Throw (unsupported typeOf)
  /\ renderANSI (DataOther typeOf) options = Throw (unsupported typeOf)
  /\ renderUnicodeCompact (DataOther typeOf) options = Throw (unsupported typeOf)
  /\ renderSVG (DataOther typeOf) options = Throw (unsupported typeOf).
Proof. repeat split. Qed.

Lemma encode_throws_text (data : QrCodeGenerateData) (o : Options.t) (e : exn) :
  encode data (Some o) = Throw e ->
  renderUnicode data (Some o) = Throw e
  /\ renderANSI data (Some o) = Throw e
  /\ renderUnicodeCompact data (Some o) = Throw e.
Proof.
  intro He. unfold renderANSI, renderUnicode, renderUnicodeCompact.
  cbn [orDefault]. rewrite withChars_encode, He. repeat split.
Qed.

Lemma encode_throws_renderers (data : QrCodeGenerateData) (o : Options.t) (e : exn) :
  encode data (Some o) = Throw e ->
  renderUnicode data (Some o) = Throw e
  /\ renderANSI data (Some o) = Throw e
  /\ renderUnicodeCompact data (Some o) = Throw e
  /\ renderSVG data (Some o) = Throw e.
Proof.
  intro He. unfold renderANSI, renderUnicode, renderUnicodeCompact, renderSVG.
  cbn [orDefault]. rewrite withChars_encode, He. repeat split.
Qed.

(** X2.  What the collaborator throws, [encode] throws: when the making of
    the segments or [encodeSegments] raises [e], so do [encode] and the four
    renderers, whatever the callback. *)
Theorem encode_collaborator_failure
        (data : QrCodeGenerateData) (o : Options.t) (e : exn) :
  segmentsOf data = Throw e
  \/ (exists segs, segmentsOf data = Ok segs /\ generate segs o = Throw e) ->
  encode data (Some o) = Throw e
  /\ renderUnicode data (Some o) = Throw e
  /\ renderANSI data (Some o) = Throw e
  /\ renderUnicodeCompact data (Some o) = Throw e
  /\ renderSVG data (Some o) = Throw e.
Proof.
  intro H.
  assert (He : encode data (Some o) = Throw e).
  { rewrite encode_stages. destruct H as [Hs|(segs & Hs & Hg)].
    - now rewrite Hs.
    - rewrite Hs. cbn [bind]. now rewrite Hg. }
  split; [exact He|]. now apply encode_throws_renderers.
Qed.

Lemma postProcess_size (o : Options.t) (qr : QrCode.t) :
  0 <= orDefault 1 (Options.border o) ->
  Result.size (postProcess o qr) = QrCode.size qr + 2 * orDefault 1 (Options.border o)
  /\ Result.version (postProcess o qr) = QrCode.version qr
  /\ Result.maskPattern (postProcess o qr) = QrCode.mask qr.
Proof.
  intro Hb. unfold postProcess.
  destruct (Z.eq_dec (orDefault 1 (Options.border o)) 0) as [Hz|Hnz].
  - rewrite Hz. destruct (orDefault false (Options.invert o));
      cbn [addBorder orDefault Z.eqb Result.size Result.version Result.maskPattern rawResult];
      repeat split; lia.
  - rewrite addBorder_positive by exact Hnz.
    destruct (orDefault false (Options.invert o));
      cbn [Result.size Result.version Result.maskPattern rawResult];
      repeat split; lia.
Qed.

(** X3.  On an accepted input, with a border [b >= 0] and a callback that
    only observes, [encode] returns a result that satisfies the invariant of
    the data model whenever the symbol of the collaborator does; its size is
    the size of the symbol plus [2b], and the version and the mask are those
    of the symbol. *)
Theorem encode_well_formed (data : QrCodeGenerateData) (o : Options.t) (qr : QrCode.t) :
  generated data o qr -> observes o -> wfQr qr ->
  0 <= orDefault 1 (Options.border o) ->
  exists r,
    encode data (Some o) = Ok r
    /\ wfResult r
    /\ Result.size r = QrCode.size qr + 2 * orDefault 1 (Options.border o)
    /\ Result.version r = QrCode.version qr
    /\ Result.maskPattern r = QrCode.mask qr.
Proof.
  intros Hgen Hobs Hqr Hb. exists (postProcess o qr).
  split; [now apply encode_generated|].
  split; [now apply postProcess_wf|].
  now apply postProcess_size.
Qed.

Lemma addBorder_interior_data (input : QrCodeGenerateResult) (b : Z) (y x : nat) (m : bool) :
  0 <= b -> at2 (Result.data input) y x = Some m ->
  at2 (Result.data (addBorder input (Some b))) (Z.to_nat b + y) (Z.to_nat b + x) = Some m.
Proof.
  intros Hb Hm. destruct (Z.eq_dec b 0) as [->|Hnz]; [exact Hm|].
  rewrite addBorder_positive by exact Hnz. cbn [Result.data].
  now apply bordered_interior.
Qed.

Lemma addBorder_interior_types (input : QrCodeGenerateResult) (b : Z) (y x : nat)
      (t : QrCodeDataType) :
  0 <= b -> at2 (Result.types input) y x = Some t ->
  at2 (Result.types (addBorder input (Some b))) (Z.to_nat b + y) (Z.to_nat b + x) = Some t.
Proof.
  intros Hb Ht. destruct (Z.eq_dec b 0) as [->|Hnz]; [exact Ht|].
  rewrite addBorder_positive by exact Hnz. cbn [Result.types].
  now apply bordered_interior.
Qed.

(** X4.  The symbol sits in the middle of the result: with a border
    [b >= 0], the module [(y, x)] of the symbol is the module [(b+y, b+x)] of
    the result, negated when [invert] is set, and the type of the position
    is kept whether [invert] is set or not. *)
Theorem encode_keeps_symbol (data : QrCodeGenerateData) (o : Options.t) (qr : QrCode.t) :
  generated data o qr -> observes o ->
  0 <= orDefault 1 (Options.border o) ->
  exists r,
    encode data (Some o) = Ok r
    /\ (forall y x m,
          at2 (QrCode.modules qr) y x = Some m ->
          at2 (Result.data r) (Z.to_nat (orDefault 1 (Options.border o)) + y)
                              (Z.to_nat (orDefault 1 (Options.border o)) + x)
          = Some (if orDefault false (Options.invert o) then negb m else m))
    /\ (forall y x t,
          at2 (QrCode.types qr) y x = Some t ->
          at2 (Result.types r) (Z.to_nat (orDefault 1 (Options.border o)) + y)
                               (Z.to_nat (orDefault 1 (Options.border o)) + x)
          = Some t).
Proof.
  intros Hgen Hobs Hb. exists (postProcess o qr).
  split; [now apply encode_generated|].
  unfold postProcess.
  destruct (orDefault false (Options.invert o)); cbn [Result.data Result.types]; split.
  - intros y x m Hm. rewrite at2_invertData.
    now rewrite (addBorder_interior_data (rawResult qr) _ y x m Hb Hm).
  - intros y x t Ht. now apply addBorder_interior_types.
  - intros y x m Hm. now apply addBorder_interior_data.
  - intros y x t Ht. now apply addBorder_interior_types.
Qed.

(** X18.  The callback receives the final result, with its border and its
    inversion, and what it does is what [encode] does: [encode] returns the
    result as the callback leaves it, and throws what the callback throws,
    in which case the renderers throw it too. *)
Theorem encode_callback
        (data : QrCodeGenerateData) (o : Options.t) (qr : QrCode.t)
        (callback : QrCodeGenerateResult -> outcome QrCodeGenerateResult) :
  generated data o qr -> Options.onEncoded o = Some callback ->
  encode data (Some o) = callback (postProcess o qr)
  /\ (forall e, callback (postProcess o qr) = Throw e ->
        renderUnicode data (Some o) = Throw e
        /\ renderANSI data (Some o) = Throw e
        /\ renderUnicodeCompact data (Some o) = Throw e
        /\ renderSVG data (Some o) = Throw e).
Proof.
  intros (segs & Hs & Hg) Hcb.
  assert (He : encode data (Some o) = callback (postProcess o qr)).
  { rewrite encode_stages, Hs. cbn [bind]. rewrite Hg. cbn [bind].
    unfold notify. now rewrite Hcb. }
  split; [exact He|].
  intros e Hthrow. apply encode_throws_renderers. now rewrite He.
Qed.

End OrchestratorMore.

Lemma encode_collaborator_failure_witness :
  (exists segs,
      @segmentsOf (Sample.failing (lit "too long")) (DataString (lit "A")) = Ok segs
      /\ @generate (Sample.failing (lit "too long")) segs Options.empty
         = Throw (Thrown (lit "too long")))
  /\ @encode (Sample.failing (lit "too long")) (DataString (lit "A")) (Some Options.empty)
     = Throw (Thrown (lit "too long")).
Proof.
  assert (H : exists segs,
             @segmentsOf (Sample.failing (lit "too long")) (DataString (lit "A")) = Ok segs
             /\ @generate (Sample.failing (lit "too long")) segs Options.empty
                = Throw (Thrown (lit "too long")))
    by (exists [tt]; split; reflexivity).
  split; [exact H|].
  exact (proj1 (@encode_collaborator_failure (Sample.failing (lit "too long"))
                  Sample.engine
                  (DataString (lit "A")) Options.empty (Thrown (lit "too long"))
                  (or_intror H))).
Defined.

Lemma encode_well_formed_witness :
  @generated (Sample.collaborator Sample.dot) (DataString (lit "A"))
             (Sample.withBorder 2) Sample.dot
  /\ observes (Sample.withBorder 2)
  /\ wfQr Sample.dot
  /\ 0 <= orDefault 1 (Options.border (Sample.withBorder 2))
  /\ exists r,
       Sample.encode Sample.dot (DataString (lit "A")) (Some (Sample.withBorder 2)) = Ok r
       /\ Result.size r = 5.
Proof.
  assert (Hgen : @generated (Sample.collaborator Sample.dot) (DataString (lit "A"))
                            (Sample.withBorder 2) Sample.dot)
    by (exists [tt]; split; reflexivity).
  assert (Hb : 0 <= orDefault 1 (Options.border (Sample.withBorder 2))) by (simpl; lia).
  split; [exact Hgen|]. split; [exact I|]. split; [exact wfQr_dot|]. split; [exact Hb|].
  destruct (@encode_well_formed (Sample.collaborator Sample.dot) (DataString (lit "A"))
              (Sample.withBorder 2) Sample.dot Hgen I wfQr_dot Hb)
    as (r & He & _ & Hsize & _).
  exists r. split; [exact He|exact Hsize].
Defined.

Lemma encode_keeps_symbol_witness :
  @generated (Sample.collaborator Sample.dot) (DataString (lit "A"))
             (Cases.invertedWithBorder 2) Sample.dot
  /\ observes (Cases.invertedWithBorder 2)
  /\ 0 <= orDefault 1 (Options.border (Cases.invertedWithBorder 2))
  /\ exists r,
       Sample.encode Sample.dot (DataString (lit "A")) (Some (Cases.invertedWithBorder 2))
       = Ok r
       /\ at2 (Result.data r) 2 2 = Some false
       /\ at2 (Result.types r) 2 2 = Some Data.
Proof.
  assert (Hgen : @generated (Sample.collaborator Sample.dot) (DataString (lit "A"))
                            (Cases.invertedWithBorder 2) Sample.dot)
    by (exists [tt]; split; reflexivity).
  assert (Hb : 0 <= orDefault 1 (Options.border (Cases.invertedWithBorder 2)))
    by (simpl; lia).
  split; [exact Hgen|]. split; [exact I|]. split; [exact Hb|].
  destruct (@encode_keeps_symbol (Sample.collaborator Sample.dot) (DataString (lit "A"))
              (Cases.invertedWithBorder 2) Sample.dot Hgen I Hb)
    as (r & He & Hdata & Htypes).
  exists r. split; [exact He|]. split.
  - exact (Hdata 0%nat 0%nat true eq_refl).
  - exact (Htypes 0%nat 0%nat Data eq_refl).
Defined.

Lemma encode_callback_witness :
  @generated (Sample.collaborator Sample.dot) (DataString (lit "A"))
             (Cases.throwing (lit "stop")) Sample.dot
  /\ Sample.encode Sample.dot (DataString (lit "A")) (Some (Cases.throwing (lit "stop")))
     = Throw (Thrown (lit "stop"))
  /\ Sample.renderSVG Sample.dot (DataString (lit "A")) (Some (Cases.throwing (lit "stop")))
     = Throw (Thrown (lit "stop")).
Proof.
  assert (Hgen : @generated (Sample.collaborator Sample.dot) (DataString (lit "A"))
                            (Cases.throwing (lit "stop")) Sample.dot)
    by (exists [tt]; split; reflexivity).
  split; [exact Hgen|].
  destruct (@encode_callback (Sample.collaborator Sample.dot) Sample.engine
              (DataString (lit "A"))
              (Cases.throwing (lit "stop")) Sample.dot
              (fun _ => Throw (Thrown (lit "stop"))) Hgen eq_refl)
    as (He & Hr).
  split; [exact He|].
  exact (proj2 (proj2 (proj2 (Hr (Thrown (lit "stop")) eq_refl)))).
Defined.

(** ** More on the text renderers *)

Lemma compactLines_eq (r : QrCodeGenerateResult) :
  compactLines r
  = map (fun i => compactLine r (2 * Z.of_nat i))
        (seq 0 (Z.to_nat ((Result.size r + 1) / 2))).
Proof. unfold compactLines. now rewrite forRange_step2, map_map. Qed.

Lemma compact_split (r : QrCodeGenerateResult) :
  0 < Result.size r ->
  split 10%N (join newline (compactLines r)) = compactLines r.
Proof.
  intro Hsz. apply split_join; [|apply compactLines_free].
  rewrite compactLines_eq.
  assert (Hpos : 0 < (Result.size r + 1) / 2) by (Z.div_mod_to_equations; lia).
  destruct (Z.to_nat ((Result.size r + 1) / 2)) as [|n] eqn:Hn; [lia|discriminate].
Qed.

Lemma compactGlyph_length (a b : jsval) : length (compactGlyph a b) = 1%nat.
Proof. destruct a as [[|]|]; destruct b as [[|]|]; reflexivity. Qed.

Lemma length_flat_map_units {A B : Type} (f : A -> list B) (l : list A) :
  (forall a, length (f a) = 1%nat) -> length (flat_map f l) = length l.
Proof.
  intro H. induction l as [|a l IH]; [reflexivity|].
  cbn [flat_map]. rewrite length_app, H, IH. reflexivity.
Qed.

Lemma compactLine_length (r : QrCodeGenerateResult) (row : Z) :
  length (compactLine r row) = Z.to_nat (Result.size r).
Proof.
  unfold compactLine. rewrite length_flat_map_units by (intro; apply compactGlyph_length).
  now rewrite forRange_step1, length_map, length_seq.
Qed.

(** X13.  Whatever result [encode] returns, of a size [> 0], the compact
    rendering has one line for each pair of rows, [ceil(size / 2)] lines in
    all, and every line has [size] code units, the last line of an odd size
    included. *)
Theorem renderUnicodeCompact_shape {qrcode : Collaborator}
        (data : QrCodeGenerateData) (o : Options.t) (r : QrCodeGenerateResult) :
  encode data (Some o) = Ok r -> 0 < Result.size r ->
  exists s,
    renderUnicodeCompact data (Some o) = Ok s
    /\ length (split 10%N s) = Z.to_nat ((Result.size r + 1) / 2)
    /\ Forall (fun line => length line = Z.to_nat (Result.size r)) (split 10%N s).
Proof.
  intros He Hsz. exists (join newline (compactLines r)).
  split; [now apply renderUnicodeCompact_of_result|].
  rewrite compact_split by exact Hsz. split.
  - now rewrite compactLines_eq, length_map, length_seq.
  - unfold compactLines. apply Forall_map, Forall_forall.
    intros row _. apply compactLine_length.
Qed.

Lemma renderUnicodeCompact_shape_witness :
  Sample.encode Sample.three (DataString (lit "A")) None
  = Ok (addBorder (rawResult Sample.three) (Some 1))
  /\ 0 < Result.size (addBorder (rawResult Sample.three) (Some 1))
  /\ exists s,
       Sample.renderUnicodeCompact Sample.three (DataString (lit "A")) None = Ok s
       /\ length (split 10%N s) = 3%nat.
Proof.
  assert (Hsz : 0 < Result.size (addBorder (rawResult Sample.three) (Some 1)))
    by (simpl; lia).
  split; [reflexivity|]. split; [exact Hsz|].
  destruct (@renderUnicodeCompact_shape (Sample.collaborator Sample.three)
              (DataString (lit "A")) Options.empty
              (addBorder (rawResult Sample.three) (Some 1)) eq_refl Hsz)
    as (s & Hs & Hlen & _).
  exists s. split; [exact Hs|exact Hlen].
Defined.

Lemma combine_by_index {A : Type} (d : A) (n : nat) (l1 l2 : list A) :
  length l1 = n -> length l2 = n ->
  map (fun i => (nth i l1 d, nth i l2 d)) (seq 0 n) = combine l1 l2.
Proof.
  intros H1 H2.
  pose proof (nth_error_nth_seq d l1) as E1. rewrite H1 in E1.
  pose proof (nth_error_nth_seq d l2) as E2. rewrite H2 in E2.
  transitivity (combine (map (fun i => nth i l1 d) (seq 0 n))
                        (map (fun i => nth i l2 d) (seq 0 n))).
  - generalize (seq 0 n). intro l.
    induction l as [|i l IH]; [reflexivity|]. cbn [map combine]. now rewrite IH.
  - now rewrite E1, E2.
Qed.

Lemma compactLine_pair (r : QrCodeGenerateResult) (i : Z) (top bottom : list bool) :
  wfResult r -> 0 <= i -> 2 * i + 1 < Result.size r ->
  nth_error (Result.data r) (Z.to_nat (2 * i)) = Some top ->
  nth_error (Result.data r) (Z.to_nat (2 * i + 1)) = Some bottom ->
  compactLine r (2 * i) = map pairChar (combine top bottom).
Proof.
  intros (Hsz & Hd & _) Hi Hlt Htop Hbottom.
  pose proof Hd as [Hlen Hrows]. rewrite Forall_forall in Hrows.
  assert (Htl : length top = Z.to_nat (Result.size r))
    by (apply Hrows; eapply nth_error_In; exact Htop).
  assert (Hbl : length bottom = Z.to_nat (Result.size r))
    by (apply Hrows; eapply nth_error_In; exact Hbottom).
  rewrite <- (combine_by_index false _ _ _ Htl Hbl), map_map.
  unfold compactLine. rewrite forRange_step1.
  rewrite (flat_map_singletons _
             (fun col => pairChar (nth (Z.to_nat col) top false,
                                   nth (Z.to_nat col) bottom false))).
  - rewrite map_map. apply map_ext. intro k. now rewrite Nat2Z.id.
  - intros col Hin. apply in_map_iff in Hin. destruct Hin as [k [<- Hk]].
    apply in_seq in Hk.
    rewrite (valueAt_inside _ _ _ _ _ top Hd) by (try exact Htop; lia).
    rewrite (valueAt_inside _ _ _ _ _ bottom Hd) by (try exact Hbottom; lia).
    destruct (nth (Z.to_nat (Z.of_nat k)) top false);
      destruct (nth (Z.to_nat (Z.of_nat k)) bottom false); reflexivity.
Qed.

(** X14.  On a result that satisfies the invariant of the data model, the
    line of the compact rendering for a pair of rows [2i] and [2i+1] that
    both exist is made, column by column, of the glyph of the two modules:
    U+2588 for light over light, U+2580 for light over dark, U+2584 for dark
    over light and a space for dark over dark. *)
Theorem renderUnicodeCompact_pair {qrcode : Collaborator}
        (data : QrCodeGenerateData) (o : Options.t) (r : QrCodeGenerateResult)
        (i : Z) (top bottom : list bool) :
  encode data (Some o) = Ok r -> wfResult r ->
  0 <= i -> 2 * i + 1 < Result.size r ->
  nth_error (Result.data r) (Z.to_nat (2 * i)) = Some top ->
  nth_error (Result.data r) (Z.to_nat (2 * i + 1)) = Some bottom ->
  exists s,
    renderUnicodeCompact data (Some o) = Ok s
    /\ nth_error (split 10%N s) (Z.to_nat i) = Some (map pairChar (combine top bottom)).
Proof.
  intros He Hwf Hi Hlt Htop Hbottom. exists (join newline (compactLines r)).
  split; [now apply renderUnicodeCompact_of_result|].
  rewrite compact_split by lia.
  rewrite compactLines_eq, nth_error_map, nth_error_seq.
  assert (Hin : (Z.to_nat i < Z.to_nat ((Result.size r + 1) / 2))%nat).
  { apply Z2Nat.inj_lt; [lia| |]; Z.div_mod_to_equations; lia. }
  destruct (Nat.ltb_spec (Z.to_nat i) (Z.to_nat ((Result.size r + 1) / 2))) as [_|Hbad];
    [|lia].
  cbn [option_map Nat.add]. rewrite Z2Nat.id by exact Hi.
  f_equal. now apply compactLine_pair.
Qed.

Lemma renderUnicodeCompact_pair_witness :
  Sample.encode Sample.three (DataString (lit "A")) (Some (Sample.withBorder 0))
  = Ok (rawResult Sample.three)
  /\ wfResult (rawResult Sample.three)
  /\ 0 <= 0 /\ 2 * 0 + 1 < Result.size (rawResult Sample.three)
  /\ exists s,
       Sample.renderUnicodeCompact Sample.three (DataString (lit "A"))
                                   (Some (Sample.withBorder 0)) = Ok s
       /\ nth_error (split 10%N s) (Z.to_nat 0) = Some [9604; 9608; 32]%N.
Proof.
  assert (Hwf : wfResult (rawResult Sample.three)) by (apply wfResultb_wf; reflexivity).
  assert (Hi : 0 <= 0) by lia.
  assert (Hlt : 2 * 0 + 1 < Result.size (rawResult Sample.three)) by (simpl; lia).
  split; [reflexivity|]. split; [exact Hwf|]. split; [exact Hi|]. split; [exact Hlt|].
  destruct (@renderUnicodeCompact_pair (Sample.collaborator Sample.three)
              (DataString (lit "A")) (Sample.withBorder 0) (rawResult Sample.three)
              0 [true; false; true] [false; false; true]
              eq_refl Hwf Hi Hlt eq_refl eq_refl)
    as (s & Hs & Hline).
  exists s. split; [exact Hs|exact Hline].
Defined.

Lemma all_equal_repeat {A : Type} (a : A) (l : list A) :
  (forall i, (i < length l)%nat -> nth_error l i = Some a) -> l = repeat a (length l).
Proof.
  induction l as [|x l IH]; intro H; [reflexivity|].
  cbn [length repeat]. f_equal.
  - specialize (H 0%nat ltac:(simpl; lia)). now injection H.
  - apply IH. intros i Hi. apply (H (S i)). simpl. lia.
Qed.

Lemma lastRowChar_light (k : nat) : map lastRowChar (repeat false k) = repeat 9600%N k.
Proof. induction k as [|k IH]; simpl; [reflexivity|now rewrite IH]. Qed.

(** X15.  For a symbol with a border [> 0] and no inversion, when the size
    of the result is odd, as it is for every QR symbol, the last line of the
    compact rendering is the upper-half block U+2580 in every column: the
    light border row over the dark default of the row that is not there. *)
Theorem renderUnicodeCompact_border_last_line {qrcode : Collaborator}
        (data : QrCodeGenerateData) (o : Options.t) (qr : QrCode.t) (k : Z) :
  generated data o qr -> observes o -> wfQr qr ->
  0 < orDefault 1 (Options.border o) ->
  orDefault false (Options.invert o) = false ->
  QrCode.size qr + 2 * orDefault 1 (Options.border o) = 2 * k + 1 ->
  exists s,
    renderUnicodeCompact data (Some o) = Ok s
    /\ length (split 10%N s) = Z.to_nat (k + 1)
    /\ nth_error (split 10%N s) (Z.to_nat k) = Some (repeat 9600%N (Z.to_nat (2 * k + 1))).
Proof.
  intros Hgen Hobs Hqr Hb Hinv Hodd.
  pose proof (encode_generated data o qr Hgen Hobs) as He.
  pose proof (postProcess_wf o qr Hqr ltac:(lia)) as Hwf.
  destruct (postProcess_size o qr ltac:(lia)) as (Hsize & _).
  assert (Hdata : Result.data (postProcess o qr)
                  = bordered false (orDefault 1 (Options.border o))
                             (QrCode.size qr + orDefault 1 (Options.border o) * 2)
                             (QrCode.modules qr)).
  { unfold postProcess. rewrite Hinv, addBorder_positive by lia. reflexivity. }
  set (r := postProcess o qr) in *.
  pose proof Hwf as (Hsz & Hd & _).
  pose proof Hqr as (Hqsz & Hqd & _).
  assert (Hk : 0 <= k) by lia.
  destruct (square_row _ _ (Z.to_nat (2 * k)) Hd ltac:(lia)) as (lastRow & Hrow & Hlen).
  assert (Hlight : lastRow = repeat false (length lastRow)).
  { apply all_equal_repeat. intros i Hi.
    pose proof (bordered_ring false (orDefault 1 (Options.border o))
                  (Z.to_nat (QrCode.size qr)) (QrCode.modules qr)
                  (2 * k) (Z.of_nat i) ltac:(lia) Hqd) as Hring.
    rewrite Z2Nat.id in Hring by exact Hqsz. rewrite <- Hdata in Hring.
    unfold at2 in Hring. rewrite Hrow, Nat2Z.id in Hring.
    apply Hring. unfold inRing. lia. }
  exists (join newline (compactLines r)).
  split; [now apply renderUnicodeCompact_of_result|].
  rewrite compact_split by lia. rewrite compactLines_eq.
  replace ((Result.size r + 1) / 2) with (k + 1)
    by (rewrite Hsize, Hodd; Z.div_mod_to_equations; lia).
  split; [now rewrite length_map, length_seq|].
  rewrite nth_error_map, nth_error_seq.
  destruct (Nat.ltb_spec (Z.to_nat k) (Z.to_nat (k + 1))) as [_|Hbad]; [|lia].
  cbn [option_map Nat.add]. rewrite Z2Nat.id by exact Hk. f_equal.
  rewrite (compactLine_last r k lastRow Hwf Hk ltac:(lia) Hrow).
  rewrite Hlight, lastRowChar_light, Hlen. f_equal. lia.
Qed.

Lemma wfQr_three : wfQr Sample.three.
Proof.
  split; [simpl; lia|]. split; apply squareb_square; reflexivity.
Qed.

Lemma renderUnicodeCompact_border_last_line_witness :
  @generated (Sample.collaborator Sample.three) (DataString (lit "A"))
             Options.empty Sample.three
  /\ observes Options.empty
  /\ wfQr Sample.three
  /\ 0 < orDefault 1 (Options.border Options.empty)
  /\ QrCode.size Sample.three + 2 * orDefault 1 (Options.border Options.empty) = 2 * 2 + 1
  /\ exists s,
       Sample.renderUnicodeCompact Sample.three (DataString (lit "A"))
                                   (Some Options.empty) = Ok s
       /\ nth_error (split 10%N s) (Z.to_nat 2) = Some (repeat 9600%N (Z.to_nat (2 * 2 + 1))).
Proof.
  assert (Hgen : @generated (Sample.collaborator Sample.three) (DataString (lit "A"))
                            Options.empty Sample.three)
    by (exists [tt]; split; reflexivity).
  assert (Hb : 0 < orDefault 1 (Options.border Options.empty)) by (simpl; lia).
  assert (Hodd : QrCode.size Sample.three + 2 * orDefault 1 (Options.border Options.empty)
                 = 2 * 2 + 1) by reflexivity.
  split; [exact Hgen|]. split; [exact I|]. split; [exact wfQr_three|].
  split; [exact Hb|]. split; [exact Hodd|].
  destruct (@renderUnicodeCompact_border_last_line (Sample.collaborator Sample.three)
              (DataString (lit "A")) Options.empty Sample.three 2
              Hgen I wfQr_three Hb eq_refl Hodd)
    as (s & Hs & _ & Hlast).
  exists s. split; [exact Hs|exact Hlast].
Defined.

Lemma unicode_lines_free (o : Options.t) (grid : list (list bool)) :
  ~ In 10%N (unicodeChar o true) -> ~ In 10%N (unicodeChar o false) ->
  Forall (fun line => ~ In 10%N line)
         (map (fun row => concat (map (unicodeChar o) row)) grid).
Proof.
  intros Hb Hw. apply Forall_map, Forall_forall. intros row _ Hin.
  apply in_concat in Hin. destruct Hin as [c [Hc Hin]].
  apply in_map_iff in Hc. destruct Hc as [m [<- _]].
  destruct m; [now apply Hb|now apply Hw].
Qed.

Lemma renderUnicode_text {qrcode : Collaborator}
      (data : QrCodeGenerateData) (o : Options.t) (r : QrCodeGenerateResult) :
  encode data (Some o) = Ok r ->
  renderUnicode data (Some o)
  = Ok (join newline (map (fun row => concat (map (unicodeChar o) row)) (Result.data r))).
Proof. intro He. now rewrite (renderUnicode_of_result data o r He). Qed.

(** X10.  Whatever the two characters, [renderUnicode] has one line per row
    of the result: when neither character contains a newline and the result
    has a row, the output split on the newline is the list of the rows, each
    the concatenation of the characters of its modules.  A result without
    rows gives the empty string, which splits into one empty line. *)
Theorem renderUnicode_lines {qrcode : Collaborator}
        (data : QrCodeGenerateData) (o : Options.t) (r : QrCodeGenerateResult) :
  encode data (Some o) = Ok r ->
  (Result.data r = [] ->
   renderUnicode data (Some o) = Ok [] /\ split 10%N [] = [[]])
  /\ (Result.data r <> [] ->
      ~ In 10%N (unicodeChar o true) -> ~ In 10%N (unicodeChar o false) ->
      exists s,
        renderUnicode data (Some o) = Ok s
        /\ split 10%N s = map (fun row => concat (map (unicodeChar o) row)) (Result.data r)
        /\ length (split 10%N s) = length (Result.data r)).
Proof.
  intro He. pose proof (renderUnicode_text data o r He) as Hs. split.
  - intro Hnil. rewrite Hnil in Hs. split; [exact Hs|reflexivity].
  - intros Hne Hb Hw. eexists. split; [exact Hs|].
    rewrite split_join.
    + split; [reflexivity|apply length_map].
    + intro Hnil. apply Hne. now apply map_eq_nil in Hnil.
    + now apply unicode_lines_free.
Qed.

Lemma renderUnicode_lines_witness :
  Sample.encode Sample.dot (DataString (lit "A")) (Some (Sample.withBorder 0))
  = Ok (rawResult Sample.dot)
  /\ exists s,
       Sample.renderUnicode Sample.dot (DataString (lit "A")) (Some (Sample.withBorder 0))
       = Ok s
       /\ split 10%N s = [[9617%N]].
Proof.
  split; [reflexivity|].
  destruct (@renderUnicode_lines (Sample.collaborator Sample.dot) (DataString (lit "A"))
              (Sample.withBorder 0) (rawResult Sample.dot) eq_refl) as [_ H].
  destruct H as (s & Hs & Hsplit & _).
  - discriminate.
  - simpl. intros [H|[]]. discriminate H.
  - simpl. intros [H|[]]. discriminate H.
  - exists s. split; [exact Hs|exact Hsplit].
Defined.

(** X11.  The three text renderers add no failure of their own: whenever
    [encode] returns a result, be it one that breaks the invariant of the
    data model, each of them returns a string. *)
Theorem text_renderers_return {qrcode : Collaborator}
        (data : QrCodeGenerateData) (o : Options.t) (r : QrCodeGenerateResult) :
  encode data (Some o) = Ok r ->
  (exists s, renderUnicode data (Some o) = Ok s)
  /\ (exists s, renderANSI data (Some o) = Ok s)
  /\ (exists s, renderUnicodeCompact data (Some o) = Ok s).
Proof.
  intro He. split; [|split].
  - eexists. exact (renderUnicode_text data o r He).
  - eexists. unfold renderANSI. cbn [orDefault].
    apply (renderUnicode_text data (Options.withChars o ansiBlack ansiWhite) r).
    rewrite withChars_encode. exact He.
  - eexists. exact (renderUnicodeCompact_of_result data o r He).
Qed.

Lemma text_renderers_return_witness :
  Sample.encode Cases.hollow (DataString (lit "A")) (Some (Sample.withBorder 0))
  = Ok (rawResult Cases.hollow)
  /\ exists s,
       Sample.renderUnicodeCompact Cases.hollow (DataString (lit "A"))
                                   (Some (Sample.withBorder 0)) = Ok s.
Proof.
  split; [reflexivity|].
  exact (proj2 (proj2 (@text_renderers_return (Sample.collaborator Cases.hollow)
                         (DataString (lit "A")) (Sample.withBorder 0)
                         (rawResult Cases.hollow) eq_refl))).
Defined.

Lemma ansiChar_length (m : bool) : length (ansiChar m) = 10%nat.
Proof. destruct m; reflexivity. Qed.

Lemma length_concat_units {A B : Type} (f : A -> list B) (k : nat) (l : list A) :
  (forall a, length (f a) = k) -> length (concat (map f l)) = (k * length l)%nat.
Proof.
  intro H. induction l as [|a l IH]; [simpl; lia|].
  cbn [map concat length]. rewrite length_app, H, IH. lia.
Qed.

(** X16.  On a result that satisfies the invariant of the data model and has
    a size [> 0], the output of [renderANSI] split on the newline has [size]
    lines, and each line has [10 * size] code units: ten for every module. *)
Theorem renderANSI_lines {qrcode : Collaborator}
        (data : QrCodeGenerateData) (o : Options.t) (r : QrCodeGenerateResult) :
  encode data (Some o) = Ok r -> wfResult r -> 0 < Result.size r ->
  exists s,
    renderANSI data (Some o) = Ok s
    /\ length (split 10%N s) = Z.to_nat (Result.size r)
    /\ Forall (fun line => length line = (10 * Z.to_nat (Result.size r))%nat)
              (split 10%N s).
Proof.
  intros He (_ & [Hlen Hrows] & _) Hsz.
  exists (join newline (map (fun row => concat (map ansiChar row)) (Result.data r))).
  split.
  - unfold renderANSI. cbn [orDefault].
    rewrite (renderUnicode_text data (Options.withChars o ansiBlack ansiWhite) r)
      by (rewrite withChars_encode; exact He).
    reflexivity.
  - rewrite split_join.
    + split; [now rewrite length_map|].
      apply Forall_map. eapply Forall_impl; [|exact Hrows].
      intros row Hrow. cbn beta in *.
      rewrite (length_concat_units ansiChar 10) by apply ansiChar_length.
      now rewrite Hrow.
    + intro Hnil. apply map_eq_nil in Hnil. rewrite Hnil in Hlen.
      cbn [length] in Hlen. lia.
    + apply Forall_map, Forall_forall. intros row _ Hin.
      apply in_concat in Hin. destruct Hin as [c [Hc Hin]].
      apply in_map_iff in Hc. destruct Hc as [m [<- _]].
      destruct m; simpl in Hin;
        repeat (destruct Hin as [Hin|Hin]; [discriminate Hin|]); exact Hin.
Qed.

Lemma renderANSI_lines_witness :
  Sample.encode Sample.dot (DataString (lit "A")) None
  = Ok (addBorder (rawResult Sample.dot) (Some 1))
  /\ wfResult (addBorder (rawResult Sample.dot) (Some 1))
  /\ 0 < Result.size (addBorder (rawResult Sample.dot) (Some 1))
  /\ exists s,
       Sample.renderANSI Sample.dot (DataString (lit "A")) None = Ok s
       /\ length (split 10%N s) = 3%nat.
Proof.
  assert (Hwf : wfResult (addBorder (rawResult Sample.dot) (Some 1)))
    by (apply wfResultb_wf; reflexivity).
  assert (Hsz : 0 < Result.size (addBorder (rawResult Sample.dot) (Some 1)))
    by (simpl; lia).
  split; [reflexivity|]. split; [exact Hwf|]. split; [exact Hsz|].
  destruct (@renderANSI_lines (Sample.collaborator Sample.dot) (DataString (lit "A"))
              Options.empty (addBorder (rawResult Sample.dot) (Some 1)) eq_refl Hwf Hsz)
    as (s & Hs & Hlen & _).
  exists s. split; [exact Hs|exact Hlen].
Defined.

(** X9.  Inverting the symbol or exchanging the two characters is the same
    to [renderUnicode]: with a callback that only observes, the rendering
    with [invert] set, dark as [b] and light as [w], is the rendering
    without [invert], dark as [w] and light as [b]. *)
Theorem renderUnicode_invert_swaps {qrcode : Collaborator}
        (data : QrCodeGenerateData) (o : Options.t) (b w : jsstring) :
  observes o ->
  renderUnicode data (Some (Options.withChars (setInvert o (Some true)) b w))
  = renderUnicode data (Some (Options.withChars (setInvert o None) w b)).
Proof.
  intro Hobs.
  set (oL := Options.withChars (setInvert o (Some true)) b w).
  set (oR := Options.withChars (setInvert o None) w b).
  destruct (segmentsOf data) as [segs|e] eqn:Hs.
  - destruct (generate segs o) as [qr|e] eqn:Hg.
    + assert (HeL : encode data (Some oL) = Ok (postProcess oL qr))
        by (apply encode_generated; [exists segs; split; [exact Hs|exact Hg]|exact Hobs]).
      assert (HeR : encode data (Some oR) = Ok (postProcess oR qr))
        by (apply encode_generated; [exists segs; split; [exact Hs|exact Hg]|exact Hobs]).
      rewrite (renderUnicode_text _ _ _ HeL), (renderUnicode_text _ _ _ HeR).
      do 2 f_equal. unfold postProcess, oL, oR.
      cbn [Options.invert Options.border Options.withChars setInvert orDefault Result.data].
      unfold invertData. rewrite map_map. apply map_ext. intro row.
      rewrite map_map. f_equal. apply map_ext. intros [|]; reflexivity.
    + assert (HeL : encode data (Some oL) = Throw e)
        by (rewrite encode_stages, Hs; cbn [bind];
            change (generate segs oL) with (generate segs o); now rewrite Hg).
      assert (HeR : encode data (Some oR) = Throw e)
        by (rewrite encode_stages, Hs; cbn [bind];
            change (generate segs oR) with (generate segs o); now rewrite Hg).
      destruct (encode_throws_text _ _ _ HeL) as [-> _].
      destruct (encode_throws_text _ _ _ HeR) as [-> _]. reflexivity.
  - assert (HeL : encode data (Some oL) = Throw e) by (now rewrite encode_stages, Hs).
    assert (HeR : encode data (Some oR) = Throw e) by (now rewrite encode_stages, Hs).
    destruct (encode_throws_text _ _ _ HeL) as [-> _].
    destruct (encode_throws_text _ _ _ HeR) as [-> _]. reflexivity.
Qed.

Lemma renderUnicode_invert_swaps_witness :
  observes (Sample.withBorder 1)
  /\ Sample.renderUnicode Sample.dot (DataString (lit "A"))
       (Some (Options.withChars (setInvert (Sample.withBorder 1) (Some true))
                                (lit "#") (lit ".")))
     = Sample.renderUnicode Sample.dot (DataString (lit "A"))
         (Some (Options.withChars (setInvert (Sample.withBorder 1) None)
                                  (lit ".") (lit "#"))).
Proof.
  split; [exact I|].
  exact (@renderUnicode_invert_swaps (Sample.collaborator Sample.dot)
           (DataString (lit "A")) (Sample.withBorder 1) (lit "#") (lit ".") I).
Defined.

Lemma count_join (c : N) (lines : list jsstring) :
  c <> 10%N ->
  count_occ N.eq_dec (join newline lines) c = count_occ N.eq_dec (concat lines) c.
Proof.
  intro Hc. induction lines as [|p rest IH]; [reflexivity|].
  cbn [join concat]. destruct rest as [|q rest'].
  - now rewrite app_nil_r.
  - rewrite !count_occ_app, IH. unfold newline.
    rewrite count_occ_cons_neq by congruence. reflexivity.
Qed.

Lemma count_dark_row (row : list bool) :
  count_occ N.eq_dec (concat (map (fun m => [defaultChar m]) row)) 9617%N
  = length (filter (fun m : bool => m) row).
Proof.
  induction row as [|m row IH]; [reflexivity|].
  cbn [map concat app filter]. destruct m; cbn [defaultChar length].
  - rewrite count_occ_cons_eq by reflexivity. now rewrite IH.
  - rewrite count_occ_cons_neq by discriminate. exact IH.
Qed.

Lemma count_dark_grid (grid : list (list bool)) :
  count_occ N.eq_dec
            (concat (map (fun row => concat (map (fun m => [defaultChar m]) row)) grid))
            9617%N
  = darkCount grid.
Proof.
  unfold darkCount. induction grid as [|row rows IH]; [reflexivity|].
  cbn [map concat]. now rewrite count_occ_app, filter_app, length_app, count_dark_row, IH.
Qed.

(** X20.  With the default characters and no inversion, the output of
    [renderUnicode] holds the dark character U+2591 once for every dark
    module of the symbol, whatever the border. *)
Theorem renderUnicode_dark_glyphs {qrcode : Collaborator}
        (data : QrCodeGenerateData) (o : Options.t) (qr : QrCode.t) :
  generated data o qr -> observes o ->
  Options.blackChar o = None -> Options.whiteChar o = None ->
  orDefault false (Options.invert o) = false ->
  exists s,
    renderUnicode data (Some o) = Ok s
    /\ count_occ N.eq_dec s 9617%N = darkCount (QrCode.modules qr).
Proof.
  intros Hgen Hobs Hb Hw Hinv.
  pose proof (encode_generated data o qr Hgen Hobs) as He.
  eexists. split; [exact (renderUnicode_text data o _ He)|].
  rewrite count_join by discriminate.
  replace (map (fun row => concat (map (unicodeChar o) row)) (Result.data (postProcess o qr)))
    with (map (fun row => concat (map (fun m => [defaultChar m]) row))
              (Result.data (postProcess o qr))).
  - rewrite count_dark_grid. unfold postProcess. rewrite Hinv.
    destruct (Z.eq_dec (orDefault 1 (Options.border o)) 0) as [Hz|Hnz].
    + rewrite Hz. reflexivity.
    + rewrite addBorder_positive by exact Hnz. cbn [Result.data].
      apply darkCount_bordered.
  - apply map_ext. intro row. f_equal. apply map_ext. intro m.
    unfold unicodeChar. rewrite Hb, Hw. destruct m; reflexivity.
Qed.

Lemma renderUnicode_dark_glyphs_witness :
  @generated (Sample.collaborator Sample.three) (DataString (lit "A"))
             (Sample.withBorder 2) Sample.three
  /\ observes (Sample.withBorder 2)
  /\ exists s,
       Sample.renderUnicode Sample.three (DataString (lit "A")) (Some (Sample.withBorder 2))
       = Ok s
       /\ count_occ N.eq_dec s 9617%N = 6%nat.
Proof.
  assert (Hgen : @generated (Sample.collaborator Sample.three) (DataString (lit "A"))
                            (Sample.withBorder 2) Sample.three)
    by (exists [tt]; split; reflexivity).
  split; [exact Hgen|]. split; [exact I|].
  destruct (@renderUnicode_dark_glyphs (Sample.collaborator Sample.three)
              (DataString (lit "A")) (Sample.withBorder 2) Sample.three
              Hgen I eq_refl eq_refl eq_refl)
    as (s & Hs & Hcount).
  exists s. split; [exact Hs|exact Hcount].
Defined.

(** ** The vector renderer on a result that lacks rows *)

Lemma foldM_returns {A S : Type} (body : S -> A -> outcome S) (xs : list A) :
  (forall s x, In x xs -> exists s', body s x = Ok s') ->
  forall s, exists s', foldM body xs s = Ok s'.
Proof.
  induction xs as [|x xs IH]; intros H s.
  - exists s. reflexivity.
  - cbn [foldM]. destruct (H s x ltac:(now left)) as [s1 Hs1]. rewrite Hs1. cbn [bind].
    apply IH. intros s2 y Hy. apply H. now right.
Qed.

Lemma foldM_throws {A S : Type} (body : S -> A -> outcome S) (e : exn)
      (before after : list A) (x : A) :
  (forall s y, In y before -> exists s', body s y = Ok s') ->
  (forall s, body s x = Throw e) ->
  forall s, foldM body (before ++ x :: after) s = Throw e.
Proof.
  induction before as [|y before IH]; intros Hok Hthrow s.
  - cbn [app foldM]. now rewrite Hthrow.
  - cbn [app foldM]. destruct (Hok s y ltac:(now left)) as [s1 Hs1]. rewrite Hs1. cbn [bind].
    apply IH; [|exact Hthrow]. intros s2 z Hz. apply Hok. now right.
Qed.

Lemma svgRow_returns {engine : Engine} (grid : list (list bool)) (pixelSize : jsnumber)
      (size row : Z) (pathes : list jsstring) :
  (Z.to_nat row < length grid)%nat ->
  exists pathes', svgRow grid pixelSize size pathes row = Ok pathes'.
Proof.
  intro Hrow. unfold svgRow. apply foldM_returns. intros acc col _.
  unfold svgCell, index2.
  destruct (nth_error grid (Z.to_nat row)) as [cells|] eqn:Hcells.
  - destruct (nth_error cells (Z.to_nat col)) as [[|]|]; eexists; reflexivity.
  - apply nth_error_None in Hcells. lia.
Qed.

Lemma svgRow_throws {engine : Engine} (grid : list (list bool)) (pixelSize : jsnumber)
      (size : Z) (row : nat) (pathes : list jsstring) :
  (length grid <= row)%nat -> 0 < size ->
  svgRow grid pixelSize size pathes (Z.of_nat row) = Throw typeErrorRow.
Proof.
  intros Hrow Hsz. unfold svgRow. rewrite forRange_step1.
  destruct (Z.to_nat size) as [|n] eqn:Hn; [lia|].
  cbn [seq map foldM]. unfold svgCell at 1, index2.
  rewrite Nat2Z.id.
  destruct (nth_error grid row) as [cells|] eqn:Hcells; [|reflexivity].
  assert (row < length grid)%nat by (apply nth_error_Some; congruence). lia.
Qed.

(** X12.  [renderSVG] trusts the size of the result: when the result
    announces more rows than its module grid has, reading the first row
    that is not there throws a TypeError, where the text renderers return
    a string. *)
Theorem renderSVG_missing_row {qrcode : Collaborator} {engine : Engine}
        (data : QrCodeGenerateData) (o : Options.t) (r : QrCodeGenerateResult) :
  encode data (Some o) = Ok r ->
  Z.of_nat (length (Result.data r)) < Result.size r ->
  renderSVG data (Some o) = Throw typeErrorRow.
Proof.
  intros He Hshort. unfold renderSVG. cbn [orDefault]. rewrite He. cbn [bind].
  rewrite forRange_step1.
  set (m := length (Result.data r)) in *.
  replace (Z.to_nat (Result.size r)) with (m + S (Z.to_nat (Result.size r) - S m))%nat by lia.
  rewrite seq_app, map_app. cbn [seq map Nat.add].
  rewrite (foldM_throws _ typeErrorRow); [reflexivity| |].
  - intros acc row Hin. apply in_map_iff in Hin. destruct Hin as [i [<- Hi]].
    apply in_seq in Hi. apply svgRow_returns. rewrite Nat2Z.id. unfold m in Hi. lia.
  - intro acc. apply svgRow_throws; [unfold m; lia|lia].
Qed.

Lemma renderSVG_missing_row_witness :
  Sample.encode Cases.hollow (DataString (lit "A")) (Some (Sample.withBorder 0))
  = Ok (rawResult Cases.hollow)
  /\ Z.of_nat (length (Result.data (rawResult Cases.hollow)))
     < Result.size (rawResult Cases.hollow)
  /\ Sample.renderSVG Cases.hollow (DataString (lit "A")) (Some (Sample.withBorder 0))
     = Throw typeErrorRow.
Proof.
  assert (H : Z.of_nat (length (Result.data (rawResult Cases.hollow)))
              < Result.size (rawResult Cases.hollow)) by (simpl; lia).
  split; [reflexivity|]. split; [exact H|].
  exact (@renderSVG_missing_row (Sample.collaborator Cases.hollow) Sample.engine
           (DataString (lit "A"))
           (Sample.withBorder 0) (rawResult Cases.hollow) eq_refl H).
Defined.

(** ** The border in the text rendering *)

Lemma bordered_ring_row {A : Type} (fill : A) (border : Z) (n : nat)
      (grid : list (list A)) (y : Z) :
  0 <= border -> square n grid ->
  0 <= y < Z.of_nat n + border * 2 ->
  y < border \/ Z.of_nat n + border * 2 - border <= y ->
  nth_error (bordered fill border (Z.of_nat n + border * 2) grid) (Z.to_nat y)
  = Some (repeat fill (n + 2 * Z.to_nat border)).
Proof.
  intros Hb Hsq Hy Hring.
  pose proof (bordered_square fill border n grid Hb Hsq) as Hsq'.
  destruct (square_row _ _ (Z.to_nat y) Hsq' ltac:(lia)) as (row & Hrow & Hlen).
  rewrite Hrow. f_equal. rewrite <- Hlen. apply all_equal_repeat.
  intros i Hi.
  pose proof (bordered_ring fill border n grid y (Z.of_nat i) Hb Hsq) as Hcell.
  unfold at2 in Hcell. rewrite Hrow, Nat2Z.id in Hcell.
  apply Hcell. unfold inRing. lia.
Qed.

Lemma defaultChar_light (k : nat) : map defaultChar (repeat false k) = repeat 9608%N k.
Proof. induction k as [|k IH]; simpl; [reflexivity|now rewrite IH]. Qed.

(** X19.  With the default characters, no inversion and a border [b > 0] on
    a symbol that satisfies the invariant, the first [b] and the last [b]
    lines of the output of [renderUnicode] are the light character U+2588 in
    every column. *)
Theorem renderUnicode_border_lines {qrcode : Collaborator}
        (data : QrCodeGenerateData) (o : Options.t) (qr : QrCode.t) (i : Z) :
  generated data o qr -> observes o -> wfQr qr ->
  Options.blackChar o = None -> Options.whiteChar o = None ->
  orDefault false (Options.invert o) = false ->
  0 < orDefault 1 (Options.border o) ->
  0 <= i < orDefault 1 (Options.border o)
  \/ QrCode.size qr + orDefault 1 (Options.border o) <= i
     < QrCode.size qr + 2 * orDefault 1 (Options.border o) ->
  exists s,
    renderUnicode data (Some o) = Ok s
    /\ nth_error (split 10%N s) (Z.to_nat i)
       = Some (repeat 9608%N (Z.to_nat (QrCode.size qr + 2 * orDefault 1 (Options.border o)))).
Proof.
  intros Hgen Hobs Hqr Hbc Hwc Hinv Hb Hi.
  pose proof (encode_generated data o qr Hgen Hobs) as He.
  pose proof Hqr as (Hqsz & Hqd & _).
  assert (Hdata : Result.data (postProcess o qr)
                  = bordered false (orDefault 1 (Options.border o))
                             (QrCode.size qr + orDefault 1 (Options.border o) * 2)
                             (QrCode.modules qr)).
  { unfold postProcess. rewrite Hinv, addBorder_positive by lia. reflexivity. }
  assert (Hrow : nth_error (Result.data (postProcess o qr)) (Z.to_nat i)
                 = Some (repeat false
                           (Z.to_nat (QrCode.size qr + 2 * orDefault 1 (Options.border o))))).
  { rewrite Hdata.
    pose proof (bordered_ring_row false (orDefault 1 (Options.border o))
                  (Z.to_nat (QrCode.size qr)) (QrCode.modules qr) i ltac:(lia) Hqd) as H.
    rewrite Z2Nat.id in H by exact Hqsz. rewrite H by lia. f_equal. f_equal. lia. }
  exists (join newline (map (map defaultChar) (Result.data (postProcess o qr)))).
  split.
  - rewrite (renderUnicode_text data o _ He). do 2 f_equal.
    apply map_ext. intro row. rewrite <- (concat_singletons defaultChar row). f_equal.
    apply map_ext. intro m. unfold unicodeChar. rewrite Hbc, Hwc. destruct m; reflexivity.
  - rewrite split_join.
    + rewrite nth_error_map, Hrow. cbn [option_map]. now rewrite defaultChar_light.
    + intro Hnil. apply map_eq_nil in Hnil. rewrite Hnil in Hrow.
      destruct (Z.to_nat i); discriminate Hrow.
    + apply defaultChar_lines_free.
Qed.

Lemma renderUnicode_border_lines_witness :
  @generated (Sample.collaborator Sample.dot) (DataString (lit "A"))
             Options.empty Sample.dot
  /\ observes Options.empty
  /\ wfQr Sample.dot
  /\ 0 < orDefault 1 (Options.border Options.empty)
  /\ exists s,
       Sample.renderUnicode Sample.dot (DataString (lit "A")) (Some Options.empty) = Ok s
       /\ nth_error (split 10%N s) (Z.to_nat 2) = Some [9608; 9608; 9608]%N.
Proof.
  assert (Hgen : @generated (Sample.collaborator Sample.dot) (DataString (lit "A"))
                            Options.empty Sample.dot)
    by (exists [tt]; split; reflexivity).
  assert (Hb : 0 < orDefault 1 (Options.border Options.empty)) by (simpl; lia).
  split; [exact Hgen|]. split; [exact I|]. split; [exact wfQr_dot|]. split; [exact Hb|].
  destruct (@renderUnicode_border_lines (Sample.collaborator Sample.dot)
              (DataString (lit "A")) Options.empty Sample.dot 2
              Hgen I wfQr_dot eq_refl eq_refl eq_refl Hb)
    as (s & Hs & Hline).
  - right. simpl. lia.
  - exists s. split; [exact Hs|exact Hline].
Defined.
